(** * ZenML trigger persistence and RBAC resource scoping

    A shallow embedding of
    - [src/zenml/zen_stores/schemas/trigger_schemas.py]
      ([TriggerSchema], [TriggerExecutionSchema]) and
    - [src/zenml/zen_server/rbac/models.py] ([ResourceType], [Resource]),
    together with the parts of the Python standard library they call
    ([json.dumps], [json.loads], [str.encode], [bytes.decode],
    [base64.b64encode], [base64.b64decode]) and what the foreign keys and
    the relationships the schemas declare mean for the deletion of rows
    in the relational store. *)

From Stdlib Require Import ZArith List Bool String Ascii Lia.
Import ListNotations.
Local Open Scope Z_scope.

(** ** Python values *)

(** A Python [str] is a sequence of code points, a [bytes] object a sequence
    of integers in [0, 256). *)
Abbreviation str := (list Z).
Abbreviation bytes := (list Z).

(** The code points of an ASCII literal. *)
Definition lit (s : string) : str :=
  map (fun a => Z.of_N (N_of_ascii a)) (list_ascii_of_string s).

Definition QUOTE : Z := 34.
Definition BACKSLASH : Z := 92.

(** Errors are results: [None] stands for a raised exception. *)
Notation "' p <- a ;; b" :=
  (match a with Some p => b | None => None end)
  (at level 61, p pattern, a at next level, right associativity).

(** ** Number literals *)

Module scanner.

Definition is_digit (c : Z) : bool := (48 <=? c) && (c <=? 57).

Fixpoint span_digits (s : str) : str * str :=
  match s with
  | c :: s' =>
      if is_digit c then let '(d, r) := span_digits s' in (c :: d, r)
      else ([], s)
  | [] => ([], [])
  end.

(** The optional minus sign of [NUMBER_RE]. *)
Definition match_sign (s : str) : str * str :=
  match s with
  | c :: s' => if c =? 45 then ([c], s') else ([], s)
  | [] => ([], [])
  end.

(** The integer part of [NUMBER_RE]: a lone zero, or a nonzero digit and
    further digits. *)
Definition match_integer (s : str) : option (str * str) :=
  match s with
  | c :: s' =>
      if c =? 48 then Some ([c], s')
      else if is_digit c then
        let '(d, r) := span_digits s' in Some (c :: d, r)
      else None
  | [] => None
  end.

(** The optional fraction of [NUMBER_RE]: a dot and at least one digit. *)
Definition match_frac (r : str) : str * str :=
  match r with
  | dot :: d :: r' =>
      if (dot =? 46) && is_digit d then
        let '(ds, r'') := span_digits r' in (dot :: d :: ds, r'')
      else ([], r)
  | _ => ([], r)
  end.

(** The optional exponent of [NUMBER_RE]: e or E, an optional sign and at
    least one digit. *)
Definition match_exp (r : str) : str * str :=
  match r with
  | e :: c :: r2 =>
      if (e =? 101) || (e =? 69) then
        if is_digit c then
          let '(ds, r3) := span_digits r2 in (e :: c :: ds, r3)
        else if (c =? 43) || (c =? 45) then
          match r2 with
          | d :: r3 =>
              if is_digit d then
                let '(ds, r4) := span_digits r3 in (e :: c :: d :: ds, r4)
              else ([], r)
          | [] => ([], r)
          end
        else ([], r)
      else ([], r)
  | _ => ([], r)
  end.

(** The characters a match of [NUMBER_RE] is made of: digits, the signs,
    the dot and the exponent letters. *)
Definition is_number_char (c : Z) : bool :=
  is_digit c || (c =? 45) || (c =? 43) || (c =? 46) || (c =? 101) || (c =? 69).

(** The text after a number does not go on with a character of a
    number. *)
Definition stops (rest : str) : Prop :=
  match rest with
  | [] => True
  | c :: _ => is_number_char c = false
  end.

(** [NUMBER_RE.match]: the integer group (with its sign), the fraction
    group, the exponent group and the text after the match. *)
Definition match_number (s : str) : option (str * str * str * str) :=
  let '(sign, s1) := match_sign s in
  ' (ds, r) <- match_integer s1 ;;
  let '(frac, r1) := match_frac r in
  let '(exp, r2) := match_exp r1 in
  Some (sign ++ ds, frac, exp, r2).

(** [int(digits)] on a string of decimal digits. *)
Definition parse_int (ds : str) : Z :=
  fold_left (fun acc c => acc * 10 + (c - 48)) ds 0.

(** [int(integer)] on the integer group of a number. *)
Definition int_of_str (text : str) : Z :=
  match text with
  | c :: ds => if c =? 45 then - parse_int ds else parse_int text
  | [] => 0
  end.

End scanner.

(** ** Floats and documents *)

(** A Python [float]: a finite double, an infinity or a NaN. *)
#[universes(template)]
Inductive pyfloat (finite : Type) : Type :=
| Finite (x : finite)
| Inf
| NegInf
| NaN.
Arguments Finite {finite} x.
Arguments Inf {finite}.
Arguments NegInf {finite}.
Arguments NaN {finite}.

(** The finite doubles with the two conversions [json] uses:
    [float.__repr__], which writes the shortest decimal literal that reads
    back as the same double, and [float(text)] on a number literal.  The
    conversions themselves are arithmetic on IEEE 754 doubles and are not
    embedded; what the code relies on is stated as two laws: the text of
    [float.__repr__] is one whole match of [NUMBER_RE] with a fraction or
    an exponent, and [float] reads it back. *)
Class Float64 : Type := {
  finite : Type;
  float_repr : finite -> str;
  float_of_str : str -> pyfloat finite;
  float_repr_literal : forall x,
    exists integer frac exp,
      scanner.match_number (float_repr x) = Some (integer, frac, exp, [])
      /\ frac ++ exp <> [];
  float_of_str_repr : forall x, float_of_str (float_repr x) = Finite x
}.

Section Values.
Context {F : Float64}.

(** The keys [json.dumps] accepts in a [dict]: [str], [int], [float],
    [bool] and [None]. *)
Inductive key : Type :=
| KStr (s : str)
| KInt (z : Z)
| KFloat (f : pyfloat finite)
| KBool (b : bool)
| KNone.

#[warnings="-register-all"]
(** The objects [json.dumps] serializes: [None], [bool], [int], [float],
    [str], [list], [tuple] and [dict].  A [dict] keeps its items in
    insertion order. *)
Inductive value : Type :=
| JNull
| JBool (b : bool)
| JInt (z : Z)
| JFloat (f : pyfloat finite)
| JStr (s : str)
| JList (l : list value)
| JTuple (l : list value)
| JDict (d : list (key * value)).

Fixpoint str_eqb (a b : str) : bool :=
  match a, b with
  | [], [] => true
  | x :: a', y :: b' => (x =? y) && str_eqb a' b'
  | _, _ => false
  end.

(** [dict.__setitem__]: an existing key keeps its position and takes the
    new value, a new key is appended. *)
Fixpoint dict_setitem (k : str) (v : value) (d : list (str * value))
  : list (str * value) :=
  match d with
  | [] => [(k, v)]
  | (k', v') :: d' =>
      if str_eqb k k' then (k', v) :: d' else (k', v') :: dict_setitem k v d'
  end.

(** [dict(pairs)]. *)
Definition dict (pairs : list (str * value)) : list (str * value) :=
  fold_left (fun d kv => dict_setitem (fst kv) (snd kv) d) pairs [].

(** The items of a [dict] whose keys are of type [str]. *)
Definition str_keys (d : list (str * value)) : list (key * value) :=
  map (fun kv => (KStr (fst kv), snd kv)) d.

(** The code points of a [str], and the two halves of a surrogate pair. *)
Definition code_point (c : Z) : bool := (0 <=? c) && (c <? 1114112).
Definition high_surrogate (c : Z) : bool := (55296 <=? c) && (c <=? 56319).
Definition low_surrogate (c : Z) : bool := (56320 <=? c) && (c <=? 57343).

(** No high surrogate is directly followed by a low surrogate. *)
Fixpoint no_surrogate_pair (s : str) : bool :=
  match s with
  | a :: s' =>
      negb (high_surrogate a
            && match s' with b :: _ => low_surrogate b | [] => false end)
      && no_surrogate_pair s'
  | [] => true
  end.

(** The strings that are read back as written: sequences of code points
    without a surrogate pair. *)
Definition unicode (s : str) : bool :=
  forallb code_point s && no_surrogate_pair s.

Fixpoint distinct (ks : list str) : bool :=
  match ks with
  | [] => true
  | k :: ks' => negb (existsb (str_eqb k) ks') && distinct ks'
  end.

Definition is_str (k : key) : bool :=
  match k with
  | KStr _ => true
  | _ => false
  end.

Definition key_str (k : key) : str :=
  match k with
  | KStr s => s
  | _ => []
  end.

(** The documents that are read back as written: there is no [tuple],
    the keys of a [dict] are of type [str] and distinct, as in every
    Python [dict], and no string holds a surrogate pair. *)
Fixpoint document (o : value) : bool :=
  match o with
  | JNull | JBool _ | JInt _ | JFloat _ => true
  | JStr s => unicode s
  | JList l => forallb document l
  | JTuple _ => false
  | JDict d =>
      distinct (map (fun kv => key_str (fst kv)) d)
      && forallb (fun kv => is_str (fst kv) && unicode (key_str (fst kv))
                            && document (snd kv)) d
  end.

(** The items of a [dict] with their keys read as [str]. *)
Definition key_strs (d : list (key * value)) : list (str * value) :=
  map (fun kv => (key_str (fst kv), snd kv)) d.

(** A JSON object, the [Dict[str, Any]] of the models. *)
Definition is_object (o : value) : bool :=
  match o with
  | JDict _ => true
  | _ => false
  end.

End Values.

(** ** json *)

Module json.
Section Json.
Context {F : Float64}.

(** [int.__repr__]: decimal digits, most significant first. *)
Fixpoint digits (fuel : nat) (n : Z) (acc : str) : str :=
  match fuel with
  | O => acc
  | S fuel' =>
      if n <? 10 then (48 + n) :: acc
      else digits fuel' (n / 10) ((48 + n mod 10) :: acc)
  end.

Definition nat_repr (n : Z) : str := digits (S (Z.to_nat (Z.log2 n))) n [].

Definition int_repr (z : Z) : str :=
  if z <? 0 then 45 :: nat_repr (- z) else nat_repr z.

(** ['{0:04x}'.format(n)] for [n < 0x10000]. *)
Definition hexdigit (d : Z) : Z := if d <? 10 then 48 + d else 87 + d.

Definition hex4 (n : Z) : str :=
  [ hexdigit (Z.land (Z.shiftr n 12) 15); hexdigit (Z.land (Z.shiftr n 8) 15);
    hexdigit (Z.land (Z.shiftr n 4) 15); hexdigit (Z.land n 15) ].

(** [ESCAPE_DCT] and the [replace] callback of
    [py_encode_basestring_ascii]; [ESCAPE_ASCII] matches a backslash, a
    double quote and everything outside [' '..'~']. *)
Definition escape_char (c : Z) : str :=
  if c =? BACKSLASH then [BACKSLASH; BACKSLASH]
  else if c =? QUOTE then [BACKSLASH; QUOTE]
  else if (32 <=? c) && (c <=? 126) then [c]
  else if c =? 8 then [BACKSLASH; 98]
  else if c =? 12 then [BACKSLASH; 102]
  else if c =? 10 then [BACKSLASH; 110]
  else if c =? 13 then [BACKSLASH; 114]
  else if c =? 9 then [BACKSLASH; 116]
  else if c <? 65536 then BACKSLASH :: 117 :: hex4 c
  else
    let n := c - 65536 in
    let s1 := Z.lor 55296 (Z.land (Z.shiftr n 10) 1023) in
    let s2 := Z.lor 56320 (Z.land n 1023) in
    (BACKSLASH :: 117 :: hex4 s1) ++ (BACKSLASH :: 117 :: hex4 s2).

Definition encode_basestring_ascii (s : str) : str :=
  QUOTE :: flat_map escape_char s ++ [QUOTE].

(** [sep.join(parts)]. *)
Fixpoint join (sep : str) (parts : list str) : str :=
  match parts with
  | [] => []
  | [p] => p
  | p :: ps => p ++ sep ++ join sep ps
  end.

(** [floatstr] of the encoder, with [allow_nan=True]. *)
Definition floatstr (o : pyfloat finite) : str :=
  match o with
  | NaN => lit "NaN"
  | Inf => lit "Infinity"
  | NegInf => lit "-Infinity"
  | Finite x => float_repr x
  end.

(** The text of a key of a [dict]: a [str] as it is, the other keys as
    the encoder converts them. *)
Definition key_text (k : key) : str :=
  match k with
  | KStr s => s
  | KFloat f => floatstr f
  | KBool true => lit "true"
  | KBool false => lit "false"
  | KNone => lit "null"
  | KInt z => int_repr z
  end.

(** [json.dumps(obj)] with its defaults: [ensure_ascii=True], item
    separator [", "], key separator [": "], no indentation, keys in
    insertion order. *)
Fixpoint dumps (o : value) : str :=
  match o with
  | JNull => lit "null"
  | JBool true => lit "true"
  | JBool false => lit "false"
  | JInt z => int_repr z
  | JFloat f => floatstr f
  | JStr s => encode_basestring_ascii s
  | JList l | JTuple l => 91 :: join (lit ", ") (map dumps l) ++ [93]
  | JDict d =>
      123 :: join (lit ", ")
               (map (fun kv => let '(k, v) := kv in
                               encode_basestring_ascii (key_text k)
                                 ++ lit ": " ++ dumps v) d)
          ++ [125]
  end.

(** [WHITESPACE]: blanks, tabs, line feeds and carriage returns. *)
Definition is_ws (c : Z) : bool :=
  (c =? 32) || (c =? 9) || (c =? 10) || (c =? 13).

Fixpoint skip_ws (s : str) : str :=
  match s with
  | c :: s' => if is_ws c then skip_ws s' else s
  | [] => []
  end.

(** [int(esc, 16)] on one hexadecimal digit. *)
Definition hexval (c : Z) : option Z :=
  if (48 <=? c) && (c <=? 57) then Some (c - 48)
  else if (97 <=? c) && (c <=? 102) then Some (c - 87)
  else if (65 <=? c) && (c <=? 70) then Some (c - 55)
  else None.

(** [_decode_uXXXX]. *)
Definition decode_uXXXX (h1 h2 h3 h4 : Z) : option Z :=
  ' d1 <- hexval h1 ;; ' d2 <- hexval h2 ;;
  ' d3 <- hexval h3 ;; ' d4 <- hexval h4 ;;
  Some (((d1 * 16 + d2) * 16 + d3) * 16 + d4).

(** The [BACKSLASH] table of the decoder. *)
Definition unescape (esc : Z) : option Z :=
  if esc =? QUOTE then Some QUOTE
  else if esc =? BACKSLASH then Some BACKSLASH
  else if esc =? 47 then Some 47
  else if esc =? 98 then Some 8
  else if esc =? 102 then Some 12
  else if esc =? 110 then Some 10
  else if esc =? 114 then Some 13
  else if esc =? 116 then Some 9
  else None.

(** [py_scanstring] with [strict=True], from just after the opening quote:
    the decoded string and the text after the closing quote. *)
Fixpoint scanstring (s : str) (chunks : str) : option (str * str) :=
  match s with
  | [] => None
  | c :: s1 =>
      if c =? QUOTE then Some (rev chunks, s1)
      else if c =? BACKSLASH then
        match s1 with
        | [] => None
        | esc :: s2 =>
            if esc =? 117 then
              match s2 with
              | h1 :: h2 :: h3 :: h4 :: s3 =>
                  ' uni <- decode_uXXXX h1 h2 h3 h4 ;;
                  if (55296 <=? uni) && (uni <=? 56319) then
                    match s3 with
                    | b :: u :: s3' =>
                        if (b =? BACKSLASH) && (u =? 117) then
                          match s3' with
                          | l1 :: l2 :: l3 :: l4 :: s4 =>
                              ' uni2 <- decode_uXXXX l1 l2 l3 l4 ;;
                              if (56320 <=? uni2) && (uni2 <=? 57343) then
                                scanstring s4
                                  (65536 + Z.lor (Z.shiftl (uni - 55296) 10)
                                                 (uni2 - 56320) :: chunks)
                              else scanstring s3 (uni :: chunks)
                          | _ => None
                          end
                        else scanstring s3 (uni :: chunks)
                    | _ => scanstring s3 (uni :: chunks)
                    end
                  else scanstring s3 (uni :: chunks)
              | _ => None
              end
            else
              ' ch <- unescape esc ;; scanstring s2 (ch :: chunks)
        end
      else if c <? 32 then None
      else scanstring s1 (c :: chunks)
  end.

(** The text after an escaped high surrogate goes on with the escape of
    a low surrogate (or breaks off inside an escape): [scanstring] then
    reads the two escapes as one character. *)
Definition low_escape (s : str) : bool :=
  match s with
  | b :: u :: s' =>
      (b =? BACKSLASH) && (u =? 117)
      && match s' with
         | l1 :: l2 :: l3 :: l4 :: _ =>
             match decode_uXXXX l1 l2 l3 l4 with
             | Some uni2 => (56320 <=? uni2) && (uni2 <=? 57343)
             | None => true
             end
         | _ => true
         end
  | _ => false
  end.

(** [string[idx:idx + len(p)] == p]. *)
Fixpoint startswith (p s : str) : option str :=
  match p, s with
  | [], _ => Some s
  | a :: p', b :: s' => if a =? b then startswith p' s' else None
  | _ :: _, [] => None
  end.

(** The number branches of [_scan_once]: a match of [NUMBER_RE] is a float
    when it has a fraction or an exponent and an int otherwise; then come
    the constants [NaN], [Infinity] and [-Infinity]. *)
Definition scan_number (s : str) : option (value * str) :=
  match scanner.match_number s with
  | Some (integer, frac, exp, r) =>
      match frac ++ exp with
      | [] => Some (JInt (scanner.int_of_str integer), r)
      | _ :: _ => Some (JFloat (float_of_str (integer ++ frac ++ exp)), r)
      end
  | None =>
      match s with
      | c :: _ =>
          if c =? 78 then
            ' r <- startswith (lit "NaN") s ;; Some (JFloat NaN, r)
          else if c =? 73 then
            ' r <- startswith (lit "Infinity") s ;; Some (JFloat Inf, r)
          else if c =? 45 then
            ' r <- startswith (lit "-Infinity") s ;; Some (JFloat NegInf, r)
          else None
      | [] => None
      end
  end.

(** [_scan_once], [JSONArray] and [JSONObject] of [json.decoder] and
    [json.scanner].  Every call and every turn of a loop spends one unit
    of [fuel]. *)
Fixpoint scan_once (fuel : nat) (s : str) : option (value * str) :=
  match fuel with
  | O => None
  | S fuel' =>
      match s with
      | [] => None
      | c :: s1 =>
          if c =? QUOTE then
            ' (x, r) <- scanstring s1 [] ;; Some (JStr x, r)
          else if c =? 123 then
            match skip_ws s1 with
            | q :: s2 =>
                if q =? 125 then Some (JDict [], s2)
                else if q =? QUOTE then object_loop fuel' s2 []
                else None
            | [] => None
            end
          else if c =? 91 then
            match skip_ws s1 with
            | q :: s2 =>
                if q =? 93 then Some (JList [], s2)
                else array_loop fuel' (q :: s2) []
            | [] => None
            end
          else if c =? 110 then
            ' r <- startswith (lit "null") s ;; Some (JNull, r)
          else if c =? 116 then
            ' r <- startswith (lit "true") s ;; Some (JBool true, r)
          else if c =? 102 then
            ' r <- startswith (lit "false") s ;; Some (JBool false, r)
          else scan_number s
      end
  end

with array_loop (fuel : nat) (s : str) (values : list value)
  : option (value * str) :=
  match fuel with
  | O => None
  | S fuel' =>
      ' (v, s1) <- scan_once fuel' s ;;
      match skip_ws s1 with
      | c :: s2 =>
          if c =? 93 then Some (JList (rev (v :: values)), s2)
          else if c =? 44 then array_loop fuel' (skip_ws s2) (v :: values)
          else None
      | [] => None
      end
  end

with object_loop (fuel : nat) (s : str) (pairs : list (str * value))
  : option (value * str) :=
  match fuel with
  | O => None
  | S fuel' =>
      ' (key, s1) <- scanstring s [] ;;
      match skip_ws s1 with
      | c :: s2 =>
          if c =? 58 then
            ' (v, s3) <- scan_once fuel' (skip_ws s2) ;;
            match skip_ws s3 with
            | e :: s4 =>
                if e =? 125 then
                  Some (JDict (str_keys (dict (rev ((key, v) :: pairs)))), s4)
                else if e =? 44 then
                  match skip_ws s4 with
                  | q :: s5 =>
                      if q =? QUOTE then
                        object_loop fuel' s5 ((key, v) :: pairs)
                      else None
                  | [] => None
                  end
                else None
            | [] => None
            end
          else None
      | [] => None
      end
  end.

(** What follows a value inside the output of [dumps]: the end of the
    text, an item separator or a closing bracket. *)
Definition at_delimiter (rest : str) : bool :=
  match rest with
  | [] => true
  | c :: _ => (c =? 44) || (c =? 93) || (c =? 125)
  end.

(** [json.loads(s)]: one value, surrounded by whitespace only. *)
Definition loads (s : str) : option value :=
  let s0 := skip_ws s in
  ' (obj, r) <- scan_once (S (List.length s0)) s0 ;;
  match skip_ws r with
  | [] => Some obj
  | _ :: _ => None
  end.

End Json.
End json.

(** The separator of [dumps] and the text of one item of a [dict]. *)
Abbreviation sep := (lit ", ").
Abbreviation item :=
  (fun kv : key * value =>
     let '(k, v) := kv in
     json.encode_basestring_ascii (json.key_text k) ++ lit ": " ++ json.dumps v).
Abbreviation str_item :=
  (fun kv : str * value =>
     json.encode_basestring_ascii (fst kv) ++ lit ": " ++ json.dumps (snd kv)).

(** The round trip of one value inside a text: the decoder reads back [v]
    from the front of [dumps v ++ rest] and stops at [rest]. *)
Definition scans {F : Float64} (v : value) : Prop :=
  document v = true ->
  forall fuel rest,
    (List.length (json.dumps v) <= fuel)%nat ->
    json.at_delimiter rest = true ->
    json.scan_once fuel (json.dumps v ++ rest) = Some (v, rest).

(** ** str.encode and bytes.decode *)

(** [s.encode("utf-8")] with the strict error handler: a code point outside
    the Unicode range and a surrogate are errors. *)
Fixpoint utf8_encode (s : str) : option bytes :=
  match s with
  | [] => Some []
  | c :: s' =>
      if c <? 0 then None
      else if c <? 128 then
        ' r <- utf8_encode s' ;; Some (c :: r)
      else if c <? 2048 then
        ' r <- utf8_encode s' ;;
        Some (Z.lor 192 (Z.shiftr c 6) :: Z.lor 128 (Z.land c 63) :: r)
      else if c <? 65536 then
        if (55296 <=? c) && (c <=? 57343) then None
        else
          ' r <- utf8_encode s' ;;
          Some (Z.lor 224 (Z.shiftr c 12)
                  :: Z.lor 128 (Z.land (Z.shiftr c 6) 63)
                  :: Z.lor 128 (Z.land c 63) :: r)
      else if c <? 1114112 then
        ' r <- utf8_encode s' ;;
        Some (Z.lor 240 (Z.shiftr c 18)
                :: Z.lor 128 (Z.land (Z.shiftr c 12) 63)
                :: Z.lor 128 (Z.land (Z.shiftr c 6) 63)
                :: Z.lor 128 (Z.land c 63) :: r)
      else None
  end.

Definition between (lo hi b : Z) : bool := (lo <=? b) && (b <=? hi).

(** [b.decode()]: UTF-8 with the strict error handler.  Overlong forms,
    encoded surrogates and values above U+10FFFF are errors. *)
Fixpoint utf8_decode (b : bytes) : option str :=
  match b with
  | [] => Some []
  | b0 :: r0 =>
      if between 0 127 b0 then
        ' s <- utf8_decode r0 ;; Some (b0 :: s)
      else if between 194 223 b0 then
        match r0 with
        | b1 :: r1 =>
            if between 128 191 b1 then
              ' s <- utf8_decode r1 ;;
              Some (Z.lor (Z.shiftl (Z.land b0 31) 6) (Z.land b1 63) :: s)
            else None
        | _ => None
        end
      else if between 224 239 b0 then
        match r0 with
        | b1 :: b2 :: r2 =>
            if between (if b0 =? 224 then 160 else 128)
                       (if b0 =? 237 then 159 else 191) b1
               && between 128 191 b2 then
              ' s <- utf8_decode r2 ;;
              Some (Z.lor (Z.shiftl (Z.land b0 15) 12)
                      (Z.lor (Z.shiftl (Z.land b1 63) 6) (Z.land b2 63)) :: s)
            else None
        | _ => None
        end
      else if between 240 244 b0 then
        match r0 with
        | b1 :: b2 :: b3 :: r3 =>
            if between (if b0 =? 240 then 144 else 128)
                       (if b0 =? 244 then 143 else 191) b1
               && between 128 191 b2 && between 128 191 b3 then
              ' s <- utf8_decode r3 ;;
              Some (Z.lor (Z.shiftl (Z.land b0 7) 18)
                      (Z.lor (Z.shiftl (Z.land b1 63) 12)
                         (Z.lor (Z.shiftl (Z.land b2 63) 6) (Z.land b3 63)))
                      :: s)
            else None
        | _ => None
        end
      else None
  end.

(** ** base64 *)

Module base64.

(** [table_b2a_base64]: A-Z, a-z, 0-9, plus, slash. *)
Definition table_b2a (i : Z) : Z :=
  if i <? 26 then 65 + i
  else if i <? 52 then 71 + i
  else if i <? 62 then i - 4
  else if i =? 62 then 43
  else 47.

(** [table_a2b_base64]; [None] for a character outside the alphabet. *)
Definition table_a2b (c : Z) : option Z :=
  if between 65 90 c then Some (c - 65)
  else if between 97 122 c then Some (c - 71)
  else if between 48 57 c then Some (c + 4)
  else if c =? 43 then Some 62
  else if c =? 47 then Some 63
  else None.

Definition PAD : Z := 61.

(** [base64.b64encode(s)], that is [binascii.b2a_base64(s, newline=False)]:
    three bytes become four characters, the last group is padded. *)
Fixpoint b64encode (s : bytes) : bytes :=
  match s with
  | [] => []
  | [a] =>
      [ table_b2a (Z.shiftr a 2); table_b2a (Z.shiftl (Z.land a 3) 4);
        PAD; PAD ]
  | [a; b] =>
      [ table_b2a (Z.shiftr a 2);
        table_b2a (Z.lor (Z.shiftl (Z.land a 3) 4) (Z.shiftr b 4));
        table_b2a (Z.shiftl (Z.land b 15) 2); PAD ]
  | a :: b :: c :: r =>
      table_b2a (Z.shiftr a 2)
        :: table_b2a (Z.lor (Z.shiftl (Z.land a 3) 4) (Z.shiftr b 4))
        :: table_b2a (Z.lor (Z.shiftl (Z.land b 15) 2) (Z.shiftr c 6))
        :: table_b2a (Z.land c 63)
        :: b64encode r
  end.

(** The loop of [binascii.a2b_base64] outside strict mode: characters
    outside the alphabet are skipped, a complete pad sequence ends the
    input, and an incomplete last quad is an error. *)
Fixpoint a2b_base64 (s : bytes) (quad_pos leftchar pads : Z) : option bytes :=
  match s with
  | [] => if quad_pos =? 0 then Some [] else None
  | c :: r =>
      if c =? PAD then
        if 2 <=? quad_pos then
          if 4 <=? quad_pos + (pads + 1) then Some []
          else a2b_base64 r quad_pos leftchar (pads + 1)
        else a2b_base64 r quad_pos leftchar pads
      else
        match table_a2b c with
        | None => a2b_base64 r quad_pos leftchar pads
        | Some v =>
            if quad_pos =? 0 then a2b_base64 r 1 v 0
            else if quad_pos =? 1 then
              ' out <- a2b_base64 r 2 (Z.land v 15) 0 ;;
              Some (Z.lor (Z.shiftl leftchar 2) (Z.shiftr v 4) :: out)
            else if quad_pos =? 2 then
              ' out <- a2b_base64 r 3 (Z.land v 3) 0 ;;
              Some (Z.lor (Z.shiftl leftchar 4) (Z.shiftr v 2) :: out)
            else
              ' out <- a2b_base64 r 0 0 0 ;;
              Some (Z.lor (Z.shiftl leftchar 6) v :: out)
        end
  end.

(** [base64.b64decode(s)] with [validate=False]. *)
Definition b64decode (s : bytes) : option bytes := a2b_base64 s 0 0 0.

(** The characters a base64 text is made of: the alphabet and the pad. *)
Definition is_char (c : Z) : bool :=
  match table_a2b c with
  | Some _ => true
  | None => c =? PAD
  end.

(** A padded base64 text: whole quads of base64 characters. *)
Definition is_text (s : bytes) : bool :=
  forallb is_char s && (Z.of_nat (List.length s) mod 4 =? 0).

End base64.

(** ** Opaque configuration blobs *)

(** [base64.b64encode(json.dumps(doc).encode("utf-8"))], the expression
    [TriggerSchema.update], [TriggerSchema.from_request] and
    [TriggerExecutionSchema.from_request] store a document with. *)
Definition encode_document {F : Float64} (doc : value) : option bytes :=
  ' raw <- utf8_encode (json.dumps doc) ;; Some (base64.b64encode raw).

(** [json.loads(base64.b64decode(blob).decode())], the expression
    [TriggerSchema.to_model] and [TriggerExecutionSchema.to_model] read a
    document with. *)
Definition decode_document {F : Float64} (blob : bytes) : option value :=
  ' raw <- base64.b64decode blob ;;
  ' text <- utf8_decode raw ;;
  json.loads text.

(** ** Collaborators of the trigger schemas *)

Definition UUID := Z.
Definition datetime := Z.

(** The schemas and response models of workspaces, users and event sources
    are declared outside the two files embedded here; the trigger schemas
    only hand them on. *)
Class Collaborators : Type := {
  WorkspaceSchema : Type;
  WorkspaceResponse : Type;
  UserSchema : Type;
  UserResponse : Type;
  EventSourceSchema : Type;
  EventSourceResponse : Type;
  (** [WorkspaceSchema.to_model()] *)
  workspace_to_model : WorkspaceSchema -> WorkspaceResponse;
  (** [UserSchema.to_model()] *)
  user_to_model : UserSchema -> UserResponse;
  (** [EventSourceSchema.flavor] *)
  event_source_flavor : EventSourceSchema -> string;
  (** [EventSourceSchema.to_model(include_metadata, include_resources)] *)
  event_source_to_model : EventSourceSchema -> bool -> bool -> EventSourceResponse
}.

(** What the ORM supplies to a schema object: the default factories of
    [BaseSchema], [uuid4] for [id] and [datetime.utcnow] once for
    [created] and once more for [updated], and the rows the relationship
    attributes resolve to through the foreign keys of an object attached
    to the session. *)
Record Session `{Collaborators} : Type := {
  uuid4 : UUID;
  utcnow_created : datetime;
  utcnow_updated : datetime;
  load_workspace : UUID -> WorkspaceSchema;
  load_user : UUID -> option UserSchema;
  load_event_source : UUID -> EventSourceSchema
}.

(** Modelled from the spec: the request model [TriggerRequest] of
    [zenml.models], with the fields [TriggerSchema.from_request] reads. *)
Module TriggerRequest.
Section Models.
Context {F : Float64}.

Record t : Type := {
  name : string;
  workspace : UUID;
  user : option UUID;
  action : value;
  action_flavor : string;
  action_subtype : string;
  event_source_id : UUID;
  event_filter : value;
  description : string
}.
End Models.
End TriggerRequest.

(** Modelled from the spec: the update model [TriggerUpdate] of
    [zenml.models].  Every field is optional; a field is unset ([None]),
    supplied as [None] ([Some None]) or supplied with a value. *)
Module TriggerUpdate.
Section Models.
Context {F : Float64}.

Record t : Type := {
  name : option (option string);
  description : option (option string);
  event_filter : option (option value);
  action : option (option value);
  is_active : option (option bool)
}.

(** A field value as [.dict()] hands it out. *)
Inductive py : Type :=
| PStr (s : string)
| PBool (b : bool)
| PDoc (d : value).

Definition item {A : Type} (field : string) (inj : A -> py)
  (st : option (option A)) : list (string * py) :=
  match st with
  | Some (Some v) => [(field, inj v)]
  | _ => []
  end.

(** [trigger_update.dict(exclude_unset=True, exclude_none=True).items()] *)
Definition dict_items (u : t) : list (string * py) :=
  item "name" PStr (name u)
  ++ item "description" PStr (description u)
  ++ item "event_filter" PDoc (event_filter u)
  ++ item "action" PDoc (action u)
  ++ item "is_active" PBool (is_active u).

(** Reading an attribute: an unset field holds its default, [None]. *)
Definition attr {A : Type} (st : option (option A)) : option A :=
  match st with
  | Some v => v
  | None => None
  end.

(** Two updates in one: a field the second update supplies with a value
    is taken from it, every other field from the first. *)
Definition merge_field {A : Type} (first second : option (option A))
  : option (option A) :=
  match attr second with
  | Some _ => second
  | None => first
  end.

Definition merge (first second : t) : t :=
  {| name := merge_field (name first) (name second);
     description := merge_field (description first) (description second);
     event_filter := merge_field (event_filter first) (event_filter second);
     action := merge_field (action first) (action second);
     is_active := merge_field (is_active first) (is_active second) |}.
End Models.
End TriggerUpdate.

(** [json.dumps] of an optional document: [None] is [null]. *)
Definition optional_document {F : Float64} (d : option value) : value :=
  match d with
  | Some doc => doc
  | None => JNull
  end.

(** Modelled from the spec: the response models of a trigger. *)
Module TriggerResponse.
Section Models.
Context {F : Float64} {C : Collaborators}.

Record Body : Type := {
  user : option UserResponse;
  created : datetime;
  updated : datetime;
  action_flavor : string;
  action_subtype : string;
  event_source_flavor : string;
  is_active : bool
}.

Record Metadata : Type := {
  workspace : WorkspaceResponse;
  event_filter : value;
  action : value;
  description : string;
  event_source : EventSourceResponse
}.

Record Resources : Type := {
  resources_event_source : EventSourceResponse
}.

Record t : Type := {
  id : UUID;
  name : string;
  body : Body;
  metadata : option Metadata;
  resources : option Resources
}.
End Models.
End TriggerResponse.

(** ** TriggerSchema *)

Module TriggerSchema.
Section Schema.
Context {F : Float64} {C : Collaborators}.

Record t : Type := {
  (* BaseSchema, NamedSchema *)
  id : UUID;
  created : datetime;
  updated : datetime;
  name : string;
  (* TriggerSchema *)
  workspace_id : UUID;
  workspace : WorkspaceSchema;
  user_id : option UUID;
  user : option UserSchema;
  event_source_id : option UUID;
  event_source : EventSourceSchema;
  event_filter : bytes;
  action : bytes;
  action_flavor : string;
  action_subtype : string;
  description : string;
  is_active : bool
}.

Definition set_updated (self : t) (v : datetime) : t :=
  {| id := id self; created := created self; updated := v; name := name self;
     workspace_id := workspace_id self; workspace := workspace self;
     user_id := user_id self; user := user self;
     event_source_id := event_source_id self;
     event_source := event_source self;
     event_filter := event_filter self; action := action self;
     action_flavor := action_flavor self;
     action_subtype := action_subtype self;
     description := description self; is_active := is_active self |}.

Definition set_name (self : t) (v : string) : t :=
  {| id := id self; created := created self; updated := updated self;
     name := v;
     workspace_id := workspace_id self; workspace := workspace self;
     user_id := user_id self; user := user self;
     event_source_id := event_source_id self;
     event_source := event_source self;
     event_filter := event_filter self; action := action self;
     action_flavor := action_flavor self;
     action_subtype := action_subtype self;
     description := description self; is_active := is_active self |}.

Definition set_event_filter (self : t) (v : bytes) : t :=
  {| id := id self; created := created self; updated := updated self;
     name := name self;
     workspace_id := workspace_id self; workspace := workspace self;
     user_id := user_id self; user := user self;
     event_source_id := event_source_id self;
     event_source := event_source self;
     event_filter := v; action := action self;
     action_flavor := action_flavor self;
     action_subtype := action_subtype self;
     description := description self; is_active := is_active self |}.

Definition set_action (self : t) (v : bytes) : t :=
  {| id := id self; created := created self; updated := updated self;
     name := name self;
     workspace_id := workspace_id self; workspace := workspace self;
     user_id := user_id self; user := user self;
     event_source_id := event_source_id self;
     event_source := event_source self;
     event_filter := event_filter self; action := v;
     action_flavor := action_flavor self;
     action_subtype := action_subtype self;
     description := description self; is_active := is_active self |}.

Definition set_description (self : t) (v : string) : t :=
  {| id := id self; created := created self; updated := updated self;
     name := name self;
     workspace_id := workspace_id self; workspace := workspace self;
     user_id := user_id self; user := user self;
     event_source_id := event_source_id self;
     event_source := event_source self;
     event_filter := event_filter self; action := action self;
     action_flavor := action_flavor self;
     action_subtype := action_subtype self;
     description := v; is_active := is_active self |}.

Definition set_is_active (self : t) (v : bool) : t :=
  {| id := id self; created := created self; updated := updated self;
     name := name self;
     workspace_id := workspace_id self; workspace := workspace self;
     user_id := user_id self; user := user self;
     event_source_id := event_source_id self;
     event_source := event_source self;
     event_filter := event_filter self; action := action self;
     action_flavor := action_flavor self;
     action_subtype := action_subtype self;
     description := description self; is_active := v |}.

(** [setattr(self, field, value)] for the fields an update carries. *)
Definition setattr (self : t) (field : string) (v : TriggerUpdate.py)
  : option t :=
  match v with
  | TriggerUpdate.PStr x =>
      if String.eqb field "name" then Some (set_name self x)
      else if String.eqb field "description" then Some (set_description self x)
      else None
  | TriggerUpdate.PBool x =>
      if String.eqb field "is_active" then Some (set_is_active self x)
      else None
  | TriggerUpdate.PDoc _ => None
  end.

(** The body of the loop of [update]. *)
Definition update_field (trigger_update : TriggerUpdate.t) (self : t)
  (it : string * TriggerUpdate.py) : option t :=
  let '(field, v) := it in
  if String.eqb field "event_filter" then
    ' blob <- encode_document
                (optional_document
                   (TriggerUpdate.attr (TriggerUpdate.event_filter trigger_update))) ;;
    Some (set_event_filter self blob)
  else if String.eqb field "action" then
    ' blob <- encode_document
                (optional_document
                   (TriggerUpdate.attr (TriggerUpdate.action trigger_update))) ;;
    Some (set_action self blob)
  else setattr self field v.

Fixpoint for_each {A B : Type} (f : B -> A -> option B) (items : list A)
  (self : B) : option B :=
  match items with
  | [] => Some self
  | it :: items' => ' self' <- f self it ;; for_each f items' self'
  end.

(** [TriggerSchema.update]; [now] is the value of [datetime.utcnow()]. *)
Definition update (now : datetime) (self : t)
  (trigger_update : TriggerUpdate.t) : option t :=
  ' self' <- for_each (update_field trigger_update)
               (TriggerUpdate.dict_items trigger_update) self ;;
  Some (set_updated self' now).

(** [TriggerSchema.from_request]; [orm] supplies the defaults of
    [BaseSchema] and the rows the relationship attributes of the new
    object resolve to once it is attached to the session. *)
Definition from_request (orm : Session) (request : TriggerRequest.t)
  : option t :=
  ' action_blob <- encode_document (TriggerRequest.action request) ;;
  ' filter_blob <- encode_document (TriggerRequest.event_filter request) ;;
  Some {| id := uuid4 orm;
          created := utcnow_created orm; updated := utcnow_updated orm;
          name := TriggerRequest.name request;
          workspace_id := TriggerRequest.workspace request;
          workspace := load_workspace orm (TriggerRequest.workspace request);
          user_id := TriggerRequest.user request;
          user := match TriggerRequest.user request with
                  | Some u => load_user orm u
                  | None => None
                  end;
          action := action_blob;
          action_flavor := TriggerRequest.action_flavor request;
          action_subtype := TriggerRequest.action_subtype request;
          event_source_id := Some (TriggerRequest.event_source_id request);
          event_source :=
            load_event_source orm (TriggerRequest.event_source_id request);
          event_filter := filter_blob;
          description := TriggerRequest.description request;
          is_active := true |}.

(** [TriggerSchema.to_model]. *)
Definition to_model (self : t) (include_metadata include_resources : bool)
  : option TriggerResponse.t :=
  let body :=
    {| TriggerResponse.user := option_map user_to_model (user self);
       TriggerResponse.created := created self;
       TriggerResponse.updated := updated self;
       TriggerResponse.action_flavor := action_flavor self;
       TriggerResponse.action_subtype := action_subtype self;
       TriggerResponse.event_source_flavor :=
         event_source_flavor (event_source self);
       TriggerResponse.is_active := is_active self |} in
  ' metadata <-
      (if include_metadata then
         ' filter_doc <- decode_document (event_filter self) ;;
         ' action_doc <- decode_document (action self) ;;
         Some (Some
           {| TriggerResponse.workspace := workspace_to_model (workspace self);
              TriggerResponse.event_filter := filter_doc;
              TriggerResponse.action := action_doc;
              TriggerResponse.description := description self;
              TriggerResponse.event_source :=
                event_source_to_model (event_source self) false false |})
       else Some None) ;;
  let resources :=
    if include_resources then
      Some {| TriggerResponse.resources_event_source :=
                event_source_to_model (event_source self) false false |}
    else None in
  Some {| TriggerResponse.id := id self;
          TriggerResponse.name := name self;
          TriggerResponse.body := body;
          TriggerResponse.metadata := metadata;
          TriggerResponse.resources := resources |}.

End Schema.
End TriggerSchema.

(** An instance of the collaborators for concrete examples: schemas and
    responses of workspaces, users and event sources are their names. *)
Definition named_collaborators : Collaborators :=
  {| WorkspaceSchema := string; WorkspaceResponse := string;
     UserSchema := string; UserResponse := string;
     EventSourceSchema := string; EventSourceResponse := string;
     workspace_to_model := fun w => w;
     user_to_model := fun u => u;
     event_source_flavor := fun e => e;
     event_source_to_model := fun e _ _ => e |}.

(** Modelled from the spec: the request and response models of a trigger
    execution. *)
Module TriggerExecutionRequest.
Section Models.
Context {F : Float64}.

Record t : Type := {
  trigger : UUID;
  event_metadata : value
}.
End Models.
End TriggerExecutionRequest.

Module TriggerExecutionResponse.
Section Models.
Context {F : Float64} {C : Collaborators}.

Record Body : Type := {
  trigger : TriggerResponse.t;
  created : datetime;
  updated : datetime
}.

Record Metadata : Type := {
  event_metadata : value
}.

Record t : Type := {
  id : UUID;
  body : Body;
  metadata : option Metadata
}.
End Models.
End TriggerExecutionResponse.

(** ** TriggerExecutionSchema *)

Module TriggerExecutionSchema.
Section Schema.
Context {F : Float64} {C : Collaborators}.

Record t : Type := {
  (* BaseSchema *)
  id : UUID;
  created : datetime;
  updated : datetime;
  (* TriggerExecutionSchema *)
  trigger_id : UUID;
  trigger : TriggerSchema.t;
  event_metadata : option bytes
}.

(** [TriggerExecutionSchema.from_request]; [load_trigger] is the
    relationship attribute [trigger] as the ORM loads it. *)
Definition from_request (orm : Session) (load_trigger : UUID -> TriggerSchema.t)
  (request : TriggerExecutionRequest.t) : option t :=
  ' blob <- encode_document (TriggerExecutionRequest.event_metadata request) ;;
  Some {| id := uuid4 orm;
          created := utcnow_created orm; updated := utcnow_updated orm;
          trigger_id := TriggerExecutionRequest.trigger request;
          trigger := load_trigger (TriggerExecutionRequest.trigger request);
          event_metadata := Some blob |}.

(** The truth value of an [Optional[bytes]]: [None] and the empty [bytes] are false. *)
Definition truthy (b : option bytes) : bool :=
  match b with
  | Some (_ :: _) => true
  | _ => false
  end.

(** [TriggerExecutionSchema.to_model]. *)
Definition to_model (self : t) (include_metadata include_resources : bool)
  : option TriggerExecutionResponse.t :=
  ' trigger_model <- TriggerSchema.to_model (trigger self) false false ;;
  let body :=
    {| TriggerExecutionResponse.trigger := trigger_model;
       TriggerExecutionResponse.created := created self;
       TriggerExecutionResponse.updated := updated self |} in
  ' metadata <-
      (if include_metadata then
         ' doc <- (if truthy (event_metadata self) then
                     match event_metadata self with
                     | Some blob => decode_document blob
                     | None => None
                     end
                   else Some (JDict [])) ;;
         Some (Some {| TriggerExecutionResponse.event_metadata := doc |})
       else Some None) ;;
  Some {| TriggerExecutionResponse.id := id self;
          TriggerExecutionResponse.body := body;
          TriggerExecutionResponse.metadata := metadata |}.

End Schema.
End TriggerExecutionSchema.

(** ** Foreign keys and the relational store *)

Inductive OnDelete : Type := CASCADE | SET_NULL.

(** The arguments of [build_foreign_key_field]. *)
Record ForeignKey : Type := {
  source : string;
  target : string;
  source_column : string;
  target_column : string;
  ondelete : OnDelete;
  nullable : bool
}.

Module TriggerForeignKeys.
(** [TriggerSchema.workspace_id] *)
Definition workspace_id : ForeignKey :=
  {| source := "trigger"; target := "workspace";
     source_column := "workspace_id"; target_column := "id";
     ondelete := CASCADE; nullable := false |}.

(** [TriggerSchema.user_id] *)
Definition user_id : ForeignKey :=
  {| source := "trigger"; target := "user";
     source_column := "user_id"; target_column := "id";
     ondelete := SET_NULL; nullable := true |}.

(** [TriggerSchema.event_source_id] *)
Definition event_source_id : ForeignKey :=
  {| source := "trigger"; target := "event_source";
     source_column := "event_source_id"; target_column := "id";
     ondelete := CASCADE; nullable := false |}.

(** [TriggerExecutionSchema.trigger_id] *)
Definition trigger_id : ForeignKey :=
  {| source := "trigger_execution"; target := "trigger";
     source_column := "trigger_id"; target_column := "id";
     ondelete := CASCADE; nullable := false |}.
End TriggerForeignKeys.

(** The arguments of [Relationship] that decide what the ORM does with
    the related rows when an object is deleted: the [delete] cascade and
    [passive_deletes], both off unless [sa_relationship_kwargs] sets
    them. *)
Record Relationship : Type := {
  back_populates : string;
  cascade_delete : bool;
  passive_deletes : bool
}.

Module TriggerRelationships.
(** [TriggerSchema.executions] *)
Definition executions : Relationship :=
  {| back_populates := "trigger";
     cascade_delete := false; passive_deletes := false |}.

(** [TriggerExecutionSchema.trigger] *)
Definition trigger : Relationship :=
  {| back_populates := "executions";
     cascade_delete := false; passive_deletes := false |}.
End TriggerRelationships.

Module Store.
Section Tables.
Context {F : Float64} {C : Collaborators}.

(** The tables the trigger schemas live in and refer to; parent tables are
    kept as their primary keys. *)
Record t : Type := {
  workspace : list UUID;
  user : list UUID;
  event_source : list UUID;
  trigger : list TriggerSchema.t;
  trigger_execution : list TriggerExecutionSchema.t
}.

Definition mem (k : UUID) (ks : list UUID) : bool := existsb (Z.eqb k) ks.

Definition refers {R : Type} (col : R -> option UUID) (gone : list UUID)
  (row : R) : bool :=
  match col row with
  | Some k => mem k gone
  | None => false
  end.

(** The rows of a child table that remain when the rows [gone] of its
    parent are deleted: a CASCADE key deletes the referring rows, a
    SET NULL key clears their column. *)
Definition on_delete {R : Type} (fk : ForeignKey) (col : R -> option UUID)
  (set_null : R -> R) (gone : list UUID) (rows : list R) : list R :=
  match ondelete fk with
  | CASCADE => filter (fun row => negb (refers col gone row)) rows
  | SET_NULL => map (fun row => if refers col gone row then set_null row else row) rows
  end.

(** The primary keys of the child rows deleted along with [gone]. *)
Definition cascaded {R : Type} (fk : ForeignKey) (col : R -> option UUID)
  (key : R -> UUID) (gone : list UUID) (rows : list R) : list UUID :=
  match ondelete fk with
  | CASCADE => map key (filter (refers col gone) rows)
  | SET_NULL => []
  end.

Definition execution_trigger (row : TriggerExecutionSchema.t) : option UUID :=
  Some (TriggerExecutionSchema.trigger_id row).

(** Deleting the triggers [gone]: the executions follow their foreign key. *)
Definition drop_triggers (gone : list UUID) (db : t) : t :=
  {| workspace := workspace db; user := user db;
     event_source := event_source db;
     trigger :=
       filter (fun row => negb (mem (TriggerSchema.id row) gone)) (trigger db);
     trigger_execution :=
       on_delete TriggerForeignKeys.trigger_id execution_trigger
         (fun row => row) gone (trigger_execution db) |}.


(** The executions the relationship [TriggerSchema.executions] loads for
    the trigger [k]. *)
Definition executions (k : UUID) (db : t) : list TriggerExecutionSchema.t :=
  filter (refers execution_trigger [k]) (trigger_execution db).


(** [DELETE FROM event_source WHERE id = k]. *)
Definition delete_event_source (k : UUID) (db : t) : t :=
  let fk := TriggerForeignKeys.event_source_id in
  let gone :=
    cascaded fk TriggerSchema.event_source_id TriggerSchema.id [k] (trigger db) in
  let db' :=
    {| workspace := workspace db; user := user db;
       event_source := filter (fun e => negb (e =? k)) (event_source db);
       trigger :=
         on_delete fk TriggerSchema.event_source_id (fun row => row) [k]
           (trigger db);
       trigger_execution := trigger_execution db |} in
  drop_triggers gone db'.

Definition trigger_exists (k : UUID) (db : t) : bool :=
  mem k (map TriggerSchema.id (trigger db)).

End Tables.
End Store.

(** ** RBAC *)

Inductive result (A : Type) : Type :=
| Ok (a : A)
| ValueError (msg : string).
Arguments Ok {A} a.
Arguments ValueError {A} msg.

Module uuid.
(** A [UUID] holds an integer in [0, 2^128). *)
Definition valid (u : UUID) : Prop := 0 <= u < 2 ^ 128.

(** One digit of the [x] format. *)
Definition hexchar (d : Z) : ascii :=
  nth (Z.to_nat d)
    [ "0"; "1"; "2"; "3"; "4"; "5"; "6"; "7"; "8"; "9";
      "a"; "b"; "c"; "d"; "e"; "f" ]%char "0"%char.

(** ['%0{width}x' % n] for [0 <= n < 16 ^ width], in front of [acc]. *)
Fixpoint hex_pad (width : nat) (n : Z) (acc : string) : string :=
  match width with
  | O => acc
  | S w => hex_pad w (n / 16) (String (hexchar (n mod 16)) acc)
  end.

(** [UUID.__str__]: the 32 hexadecimal digits in groups of 8, 4, 4, 4
    and 12. *)
Definition str (u : UUID) : string :=
  let hex := hex_pad 32 u EmptyString in
  (substring 0 8 hex ++ "-" ++ substring 8 4 hex ++ "-"
     ++ substring 12 4 hex ++ "-" ++ substring 16 4 hex ++ "-"
     ++ substring 20 12 hex)%string.
End uuid.

(** [c in s] for a character and a string. *)
Fixpoint occurs (c : ascii) (s : string) : bool :=
  match s with
  | EmptyString => false
  | String a s' => Ascii.eqb a c || occurs c s'
  end.

(** [repr(s)] of a [str] whose code points are below 256, the characters
    of a [string]: double quotes when [s] holds an apostrophe and no double
    quote, single quotes otherwise; the quote and the backslash are
    escaped, tab, newline and carriage return are written with their
    letter, and the other characters that are not printable (the controls,
    U+007F to U+00A0 and U+00AD) with two hexadecimal digits. *)
Module repr.
Definition DOUBLE : ascii := ascii_of_nat 34.
Definition SINGLE : ascii := "'"%char.

Definition hex2 (n : nat) : string :=
  String (uuid.hexchar (Z.of_nat (n / 16)))
    (String (uuid.hexchar (Z.of_nat (n mod 16))) EmptyString).

Definition isprintable (n : nat) : bool :=
  (Nat.leb 32 n && Nat.ltb n 127) || (Nat.leb 161 n && negb (Nat.eqb n 173)).

Definition escape (quote c : ascii) : string :=
  let n := nat_of_ascii c in
  if Ascii.eqb c quote || Ascii.eqb c "\"%char then
    String "\"%char (String c EmptyString)
  else if Nat.eqb n 9 then "\t"
  else if Nat.eqb n 10 then "\n"
  else if Nat.eqb n 13 then "\r"
  else if isprintable n then String c EmptyString
  else ("\x" ++ hex2 n)%string.

Fixpoint body (quote : ascii) (s : string) : string :=
  match s with
  | EmptyString => EmptyString
  | String c s' => (escape quote c ++ body quote s')%string
  end.

Definition str (s : string) : string :=
  let quote :=
    if occurs SINGLE s && negb (occurs DOUBLE s) then DOUBLE else SINGLE in
  String quote (body quote s ++ String quote EmptyString).
End repr.

Module Action.
(** [Action], the RBAC actions. *)
Inductive t : Type :=
| CREATE | READ | UPDATE | DELETE | READ_SECRET_VALUE | PRUNE | CLIENT
| PROMOTE | BACKUP_RESTORE | SHARE.

Definition members : list t :=
  [ CREATE; READ; UPDATE; DELETE; READ_SECRET_VALUE; PRUNE; CLIENT;
    PROMOTE; BACKUP_RESTORE; SHARE ].

Definition value (a : t) : string :=
  match a with
  | CREATE => "create"
  | READ => "read"
  | UPDATE => "update"
  | DELETE => "delete"
  | READ_SECRET_VALUE => "read_secret_value"
  | PRUNE => "prune"
  | CLIENT => "client"
  | PROMOTE => "promote"
  | BACKUP_RESTORE => "backup_restore"
  | SHARE => "share"
  end.

(** [Action(value)]: the member with that value; when there is none,
    [ValueError("%r is not a valid %s" % (value, cls.__qualname__))]. *)
Definition of_value (s : string) : result t :=
  match find (fun a => String.eqb (value a) s) members with
  | Some a => Ok a
  | None => ValueError (repr.str s ++ " is not a valid Action")
  end.
End Action.

Module ResourceType.
Inductive t : Type :=
| ACTION | ARTIFACT | ARTIFACT_VERSION | CODE_REPOSITORY | EVENT_SOURCE
| FLAVOR | MODEL | MODEL_VERSION | PIPELINE | PIPELINE_RUN
| PIPELINE_DEPLOYMENT | PIPELINE_BUILD | RUN_TEMPLATE | SERVICE
| RUN_METADATA | SECRET | SERVICE_ACCOUNT | SERVICE_CONNECTOR | STACK
| STACK_COMPONENT | TAG | TRIGGER | TRIGGER_EXECUTION.

Definition members : list t :=
  [ ACTION; ARTIFACT; ARTIFACT_VERSION; CODE_REPOSITORY; EVENT_SOURCE;
    FLAVOR; MODEL; MODEL_VERSION; PIPELINE; PIPELINE_RUN;
    PIPELINE_DEPLOYMENT; PIPELINE_BUILD; RUN_TEMPLATE; SERVICE;
    RUN_METADATA; SECRET; SERVICE_ACCOUNT; SERVICE_CONNECTOR; STACK;
    STACK_COMPONENT; TAG; TRIGGER; TRIGGER_EXECUTION ].

(** The string value of a member of the [StrEnum]. *)
Definition value (r : t) : string :=
  match r with
  | ACTION => "action"
  | ARTIFACT => "artifact"
  | ARTIFACT_VERSION => "artifact_version"
  | CODE_REPOSITORY => "code_repository"
  | EVENT_SOURCE => "event_source"
  | FLAVOR => "flavor"
  | MODEL => "model"
  | MODEL_VERSION => "model_version"
  | PIPELINE => "pipeline"
  | PIPELINE_RUN => "pipeline_run"
  | PIPELINE_DEPLOYMENT => "pipeline_deployment"
  | PIPELINE_BUILD => "pipeline_build"
  | RUN_TEMPLATE => "run_template"
  | SERVICE => "service"
  | RUN_METADATA => "run_metadata"
  | SECRET => "secret"
  | SERVICE_ACCOUNT => "service_account"
  | SERVICE_CONNECTOR => "service_connector"
  | STACK => "stack"
  | STACK_COMPONENT => "stack_component"
  | TAG => "tag"
  | TRIGGER => "trigger"
  | TRIGGER_EXECUTION => "trigger_execution"
  end.

(** Members of a [StrEnum] compare by value. *)
Definition eqb (a b : t) : bool := String.eqb (value a) (value b).

(** [self in [...]] *)
Definition contains (l : list t) (self : t) : bool := existsb (eqb self) l.

Definition is_flexible_scoped (self : t) : bool :=
  contains [FLAVOR; SECRET; SERVICE_CONNECTOR; STACK; STACK_COMPONENT] self.

Definition is_unscoped (self : t) : bool :=
  contains [SERVICE_ACCOUNT] self.

Definition is_workspace_scoped (self : t) : bool :=
  negb (is_flexible_scoped self) && negb (is_unscoped self).

(** [ResourceType(value)]: the member with that value; when there is
    none, [ValueError("%r is not a valid %s" % (value, cls.__qualname__))]. *)
Definition of_value (s : string) : result t :=
  match find (fun r => String.eqb (value r) s) members with
  | Some r => Ok r
  | None => ValueError (repr.str s ++ " is not a valid ResourceType")
  end.
End ResourceType.

Module Resource.
Record t : Type := {
  type : string;
  id : option UUID;
  workspace_id : option UUID
}.

(** The truth value of an [Optional[UUID]]: only [None] is false. *)
Definition is_set (u : option UUID) : bool :=
  match u with
  | Some _ => true
  | None => false
  end.

(** [Resource.validate_workspace_id], the validator that runs when a
    [Resource] is constructed. *)
Definition validate_workspace_id (self : t) : result t :=
  match ResourceType.of_value (type self) with
  | ValueError msg => ValueError msg
  | Ok resource_type =>
      if ResourceType.is_workspace_scoped resource_type
         && negb (is_set (workspace_id self)) then
        ValueError
          ("workspace_id must be set for workspace-scoped resource type '"
             ++ type self ++ "'")
      else if ResourceType.is_unscoped resource_type
              && is_set (workspace_id self) then
        ValueError
          ("workspace_id must not be set for unscoped resource type '"
             ++ type self ++ "'")
      else Ok self
  end.

(** [Resource(type=..., id=..., workspace_id=...)]. *)
Definition new (type_ : string) (id_ workspace_id_ : option UUID) : result t :=
  validate_workspace_id
    {| type := type_; id := id_; workspace_id := workspace_id_ |}.

Definition fails {A : Type} (r : result A) : bool :=
  match r with
  | Ok _ => false
  | ValueError _ => true
  end.

(** The resources the server builds: the type is the value of a resource
    type and the keys are UUIDs. *)
Definition optional_uuid (u : option UUID) : Prop :=
  match u with
  | Some k => uuid.valid k
  | None => True
  end.

Definition well_formed (self : t) : Prop :=
  (exists resource_type, ResourceType.of_value (type self) = Ok resource_type)
  /\ optional_uuid (id self) /\ optional_uuid (workspace_id self).

(** [Resource.__str__] *)
Definition __str__ (self : t) : string :=
  let representation :=
    match workspace_id self with
    | Some w => (uuid.str w ++ ":")%string
    | None => EmptyString
    end in
  let representation := (representation ++ type self)%string in
  match id self with
  | Some i => (representation ++ "/" ++ uuid.str i)%string
  | None => representation
  end.
End Resource.

(** ** Concrete inputs *)

(** Four doubles by name, enough for the concrete inputs: [0.5], [-0.0],
    [1e+16] and [1.5e-07], written as [float.__repr__] writes them and
    read back from exactly these literals. *)
Module samples.
Inductive double : Type := half | minus_zero | ten_to_16 | small.

Definition repr (x : double) : str :=
  match x with
  | half => lit "0.5"
  | minus_zero => lit "-0.0"
  | ten_to_16 => lit "1e+16"
  | small => lit "1.5e-07"
  end.

Definition of_str (text : str) : pyfloat double :=
  if str_eqb text (lit "0.5") then Finite half
  else if str_eqb text (lit "-0.0") then Finite minus_zero
  else if str_eqb text (lit "1e+16") then Finite ten_to_16
  else if str_eqb text (lit "1.5e-07") then Finite small
  else NaN.
End samples.

Definition sample_floats : Float64.
Proof.
  refine {| finite := samples.double;
            float_repr := samples.repr;
            float_of_str := samples.of_str;
            float_repr_literal := _;
            float_of_str_repr := _ |}.
  - intros []; do 3 eexists; (split; [reflexivity | discriminate]).
  - intros []; reflexivity.
Defined.

Module Examples.
#[local] Existing Instance sample_floats.
#[local] Existing Instance named_collaborators.

(** [{"a": 1}] and [{"b": 2}] *)
Definition filter_a1 : value := JDict [(KStr (lit "a"), JInt 1)].
Definition filter_b2 : value := JDict [(KStr (lit "b"), JInt 2)].

(** [{"pipeline": "train", "tags": ["nightly", null, true], "retries": -3}] *)
Definition action_doc : value :=
  JDict [ (KStr (lit "pipeline"), JStr (lit "train"));
          (KStr (lit "tags"), JList [JStr (lit "nightly" ++ [10; 233; 128512]); JNull; JBool true]);
          (KStr (lit "retries"), JInt (-3)) ].

Definition session : Session :=
  {| uuid4 := 10; utcnow_created := 1000; utcnow_updated := 1001;
     load_workspace := fun _ => "default"%string;
     load_user := fun _ => Some "admin"%string;
     load_event_source := fun _ => "github"%string |}.

Definition request : TriggerRequest.t :=
  {| TriggerRequest.name := "on-push";
     TriggerRequest.workspace := 1;
     TriggerRequest.user := Some 2;
     TriggerRequest.action := action_doc;
     TriggerRequest.action_flavor := "builtin";
     TriggerRequest.action_subtype := "PipelineRun";
     TriggerRequest.event_source_id := 3;
     TriggerRequest.event_filter := filter_a1;
     TriggerRequest.description := "run on push" |}.

(** A stored trigger with the columns of [request]. *)
Definition trigger : TriggerSchema.t :=
  {| TriggerSchema.id := 10;
     TriggerSchema.created := 1000;
     TriggerSchema.updated := 1000;
     TriggerSchema.name := "on-push";
     TriggerSchema.workspace_id := 1;
     TriggerSchema.workspace := "default"%string;
     TriggerSchema.user_id := Some 2;
     TriggerSchema.user := Some "admin"%string;
     TriggerSchema.event_source_id := Some 3;
     TriggerSchema.event_source := "github"%string;
     TriggerSchema.event_filter := base64.b64encode (json.dumps filter_a1);
     TriggerSchema.action := base64.b64encode (json.dumps action_doc);
     TriggerSchema.action_flavor := "builtin";
     TriggerSchema.action_subtype := "PipelineRun";
     TriggerSchema.description := "run on push";
     TriggerSchema.is_active := true |}.

(** [TriggerUpdate(event_filter={"b": 2})] *)
Definition update_filter : TriggerUpdate.t :=
  {| TriggerUpdate.name := None;
     TriggerUpdate.description := None;
     TriggerUpdate.event_filter := Some (Some filter_b2);
     TriggerUpdate.action := None;
     TriggerUpdate.is_active := None |}.

(** [TriggerUpdate()] *)
Definition update_nothing : TriggerUpdate.t :=
  {| TriggerUpdate.name := None;
     TriggerUpdate.description := None;
     TriggerUpdate.event_filter := None;
     TriggerUpdate.action := None;
     TriggerUpdate.is_active := None |}.

(** An execution of [trigger] stored without event metadata. *)
Definition execution : TriggerExecutionSchema.t :=
  {| TriggerExecutionSchema.id := 100;
     TriggerExecutionSchema.created := 2000;
     TriggerExecutionSchema.updated := 2000;
     TriggerExecutionSchema.trigger_id := 10;
     TriggerExecutionSchema.trigger := trigger;
     TriggerExecutionSchema.event_metadata := None |}.

(** A store with one workspace, one user, one event source, the trigger
    bound to it and one execution of the trigger. *)
Definition db : Store.t :=
  {| Store.workspace := [1]; Store.user := [2]; Store.event_source := [3];
     Store.trigger := [trigger]; Store.trigger_execution := [execution] |}.

(** A request to record an execution of [trigger] with event metadata
    [{"ref": "main", "commits": [1, 2]}]. *)
Definition execution_request : TriggerExecutionRequest.t :=
  {| TriggerExecutionRequest.trigger := 10;
     TriggerExecutionRequest.event_metadata :=
       JDict [ (KStr (lit "ref"), JStr (lit "main"));
               (KStr (lit "commits"), JList [JInt 1; JInt 2]) ] |}.

(** A stored execution with the columns of [execution_request]. *)
Definition recorded_execution : TriggerExecutionSchema.t :=
  {| TriggerExecutionSchema.id := 102;
     TriggerExecutionSchema.created := 3000;
     TriggerExecutionSchema.updated := 3000;
     TriggerExecutionSchema.trigger_id := 10;
     TriggerExecutionSchema.trigger := trigger;
     TriggerExecutionSchema.event_metadata :=
       Some (base64.b64encode
               (json.dumps
                  (TriggerExecutionRequest.event_metadata execution_request))) |}.

(** [TriggerUpdate(name="on-merge", is_active=False)] *)
Definition update_rename : TriggerUpdate.t :=
  {| TriggerUpdate.name := Some (Some "on-merge"%string);
     TriggerUpdate.description := Some None;
     TriggerUpdate.event_filter := None;
     TriggerUpdate.action := None;
     TriggerUpdate.is_active := Some (Some false) |}.

(** An execution of [trigger] stored with an empty blob. *)
Definition empty_execution : TriggerExecutionSchema.t :=
  {| TriggerExecutionSchema.id := 101;
     TriggerExecutionSchema.created := 2000;
     TriggerExecutionSchema.updated := 2000;
     TriggerExecutionSchema.trigger_id := 10;
     TriggerExecutionSchema.trigger := trigger;
     TriggerExecutionSchema.event_metadata := Some [] |}.

(** [{"threshold": 0.5, "floor": -0.0, "budget": 1e+16, "step": 1.5e-07,
    "ceiling": float("inf"), "depth": float("-inf"), "gap": float("nan"),
    "lone": "\ud83d!", "action": action_doc}] *)
Definition metrics_doc : value :=
  JDict [ (KStr (lit "threshold"), JFloat (Finite samples.half));
          (KStr (lit "floor"), JFloat (Finite samples.minus_zero));
          (KStr (lit "budget"), JFloat (Finite samples.ten_to_16));
          (KStr (lit "step"), JFloat (Finite samples.small));
          (KStr (lit "ceiling"), JFloat Inf);
          (KStr (lit "depth"), JFloat NegInf);
          (KStr (lit "gap"), JFloat NaN);
          (KStr (lit "lone"), JStr [55357; 33]);
          (KStr (lit "action"), action_doc) ].

(** [{"emoji": "\ud83d\ude00"}], a string of two code points, the halves
    of a surrogate pair, and [{"emoji": "\U0001f600"}], a string of one. *)
Definition halves_doc : value := JDict [(KStr (lit "emoji"), JStr [55357; 56832])].
Definition emoji_doc : value := JDict [(KStr (lit "emoji"), JStr [128512])].

(** [{"range": (1, 2)}] and [{"range": [1, 2]}] *)
Definition tuple_doc : value :=
  JDict [(KStr (lit "range"), JTuple [JInt 1; JInt 2])].
Definition list_doc : value :=
  JDict [(KStr (lit "range"), JList [JInt 1; JInt 2])].

(** [{"retries": {1: "once"}}] and [{"retries": {"1": "once"}}] *)
Definition int_key_doc : value :=
  JDict [(KStr (lit "retries"), JDict [(KInt 1, JStr (lit "once"))])].
Definition str_key_doc : value :=
  JDict [(KStr (lit "retries"), JDict [(KStr (lit "1"), JStr (lit "once"))])].

(** The resource of a trigger in a workspace. *)
Definition resource : Resource.t :=
  {| Resource.type := "trigger"; Resource.id := Some 10;
     Resource.workspace_id := Some 1 |}.

End Examples.

(** * Proofs *)

(** ** Bit operations as arithmetic *)

Lemma land_shiftl_low (a x k : Z) :
  0 <= k -> 0 <= x < 2 ^ k -> Z.land (Z.shiftl a k) x = 0.
Proof.
  intros Hk Hx. apply Z.bits_inj'. intros i Hi.
  rewrite Z.land_spec, Z.bits_0.
  destruct (Z.lt_ge_cases i k) as [Hlt | Hge].
  - rewrite Z.shiftl_spec_low by lia. reflexivity.
  - rewrite <- (Z.mod_small x (2 ^ k)) by lia.
    rewrite Z.mod_pow2_bits_high by lia. apply andb_false_r.
Qed.

Lemma lor_shiftl (a x k : Z) :
  0 <= k -> 0 <= x < 2 ^ k -> Z.lor (Z.shiftl a k) x = a * 2 ^ k + x.
Proof.
  intros Hk Hx.
  rewrite <- Z.lxor_lor by (apply land_shiftl_low; assumption).
  rewrite <- Z.add_nocarry_lxor by (apply land_shiftl_low; assumption).
  rewrite Z.shiftl_mul_pow2 by assumption. reflexivity.
Qed.

Lemma lor_high (h a x k : Z) :
  h = a * 2 ^ k -> 0 <= k -> 0 <= x < 2 ^ k -> Z.lor h x = h + x.
Proof.
  intros -> Hk Hx. rewrite <- (Z.shiftl_mul_pow2 a k) by assumption.
  rewrite lor_shiftl by assumption. rewrite Z.shiftl_mul_pow2 by assumption.
  reflexivity.
Qed.

Lemma land_low (x k : Z) : 0 <= k -> Z.land x (2 ^ k - 1) = x mod 2 ^ k.
Proof.
  intros Hk. rewrite <- Z.land_ones by assumption.
  f_equal. rewrite Z.ones_equiv. lia.
Qed.

Lemma land_15 x : Z.land x 15 = x mod 16.
Proof. apply (land_low x 4). lia. Qed.
Lemma land_1023 x : Z.land x 1023 = x mod 1024.
Proof. apply (land_low x 10). lia. Qed.
Lemma land_63 x : Z.land x 63 = x mod 64.
Proof. apply (land_low x 6). lia. Qed.
Lemma land_3 x : Z.land x 3 = x mod 4.
Proof. apply (land_low x 2). lia. Qed.

Lemma shiftr_div (x k : Z) : 0 <= k -> Z.shiftr x k = x / 2 ^ k.
Proof. apply Z.shiftr_div_pow2. Qed.

(** ** Hexadecimal escapes *)

Lemma hexval_hexdigit d : 0 <= d < 16 -> json.hexval (json.hexdigit d) = Some d.
Proof.
  intros Hd. unfold json.hexval, json.hexdigit.
  destruct (d <? 10) eqn:E.
  - apply Z.ltb_lt in E.
    replace ((48 <=? 48 + d) && (48 + d <=? 57)) with true
      by (symmetry; apply andb_true_iff; split; apply Z.leb_le; lia).
    f_equal. lia.
  - apply Z.ltb_ge in E.
    replace ((48 <=? 87 + d) && (87 + d <=? 57)) with false
      by (symmetry; apply andb_false_iff; right; apply Z.leb_gt; lia).
    replace ((97 <=? 87 + d) && (87 + d <=? 102)) with true
      by (symmetry; apply andb_true_iff; split; apply Z.leb_le; lia).
    f_equal. lia.
Qed.

Lemma decode_hex4 n :
  0 <= n < 65536 ->
  exists h1 h2 h3 h4,
    json.hex4 n = [h1; h2; h3; h4] /\ json.decode_uXXXX h1 h2 h3 h4 = Some n.
Proof.
  intros Hn. unfold json.hex4. do 4 eexists. split; [reflexivity|].
  unfold json.decode_uXXXX.
  rewrite !land_15, !shiftr_div by lia.
  change (2 ^ 12) with 4096. change (2 ^ 8) with 256. change (2 ^ 4) with 16.
  rewrite !hexval_hexdigit by (apply Z.mod_pos_bound; lia).
  f_equal. Z.to_euclidean_division_equations. lia.
Qed.

(** ** Escaped strings *)

Ltac bool_hyps :=
  repeat match goal with
  | H : _ && _ = true |- _ => apply andb_true_iff in H; destruct H
  | H : _ && _ = false |- _ => apply andb_false_iff in H
  | H : negb _ = true |- _ => apply negb_true_iff in H
  | H : negb _ = false |- _ => apply negb_false_iff in H
  | H : (_ =? _) = true |- _ => apply Z.eqb_eq in H
  | H : (_ =? _) = false |- _ => apply Z.eqb_neq in H
  | H : (_ <=? _) = true |- _ => apply Z.leb_le in H
  | H : (_ <=? _) = false |- _ => apply Z.leb_gt in H
  | H : (_ <? _) = true |- _ => apply Z.ltb_lt in H
  | H : (_ <? _) = false |- _ => apply Z.ltb_ge in H
  end.

Lemma eqb_false a b : a <> b -> (a =? b) = false.
Proof. apply Z.eqb_neq. Qed.
Lemma leb_true a b : a <= b -> (a <=? b) = true.
Proof. apply Z.leb_le. Qed.
Lemma leb_false a b : b < a -> (a <=? b) = false.
Proof. apply Z.leb_gt. Qed.
Lemma ltb_true a b : a < b -> (a <? b) = true.
Proof. apply Z.ltb_lt. Qed.
Lemma ltb_false a b : b <= a -> (a <? b) = false.
Proof. apply Z.ltb_ge. Qed.

(** Decide the comparisons of the goal from the arithmetic context. *)
Ltac decide_tests :=
  repeat first
    [ rewrite eqb_false by lia | rewrite leb_true by lia
    | rewrite leb_false by lia | rewrite ltb_true by lia
    | rewrite ltb_false by lia | rewrite Z.eqb_refl ].

Lemma scanstring_plain c tail chunks :
  32 <= c -> c <> QUOTE -> c <> BACKSLASH ->
  json.scanstring (c :: tail) chunks = json.scanstring tail (c :: chunks).
Proof.
  intros H1 H2 H3. unfold QUOTE, BACKSLASH in *.
  cbn [json.scanstring]. unfold QUOTE, BACKSLASH. decide_tests. reflexivity.
Qed.

Lemma scanstring_u4 n tail chunks :
  0 <= n < 65536 -> ~ (55296 <= n <= 56319) ->
  json.scanstring (BACKSLASH :: 117 :: json.hex4 n ++ tail) chunks
  = json.scanstring tail (n :: chunks).
Proof.
  intros Hn Hs. destruct (decode_hex4 n Hn) as (h1 & h2 & h3 & h4 & E & D).
  rewrite E. cbn [json.scanstring app]. unfold BACKSLASH, QUOTE.
  cbn [Z.eqb Pos.eqb]. rewrite D.
  destruct (55296 <=? n) eqn:A; destruct (n <=? 56319) eqn:B; bool_hyps;
    try reflexivity.
  lia.
Qed.

Lemma scanstring_pair n tail chunks :
  0 <= n < 1048576 ->
  json.scanstring
    ((BACKSLASH :: 117
        :: json.hex4 (Z.lor 55296 (Z.land (Z.shiftr n 10) 1023)))
       ++ (BACKSLASH :: 117 :: json.hex4 (Z.lor 56320 (Z.land n 1023)))
       ++ tail) chunks
  = json.scanstring tail (65536 + n :: chunks).
Proof.
  intros Hn.
  rewrite land_1023, land_1023, shiftr_div by lia. change (2 ^ 10) with 1024.
  rewrite (lor_high 55296 54 _ 10) by (try reflexivity; try lia; apply Z.mod_pos_bound; lia).
  rewrite (lor_high 56320 55 _ 10) by (try reflexivity; try lia; apply Z.mod_pos_bound; lia).
  assert (Hq : 0 <= n / 1024 < 1024) by (Z.to_euclidean_division_equations; lia).
  rewrite (Z.mod_small (n / 1024)) by lia.
  assert (Hr : 0 <= n mod 1024 < 1024) by (apply Z.mod_pos_bound; lia).
  destruct (decode_hex4 (55296 + n / 1024)) as (h1 & h2 & h3 & h4 & E1 & D1); [lia|].
  destruct (decode_hex4 (56320 + n mod 1024)) as (l1 & l2 & l3 & l4 & E2 & D2); [lia|].
  rewrite E1, E2. cbn [json.scanstring app]. unfold BACKSLASH, QUOTE.
  cbn [Z.eqb Pos.eqb]. rewrite D1.
  rewrite (leb_true 55296) by lia. rewrite (leb_true _ 56319) by lia.
  cbn [andb]. rewrite D2.
  rewrite (leb_true 56320) by lia. rewrite (leb_true _ 57343) by lia.
  cbn [andb]. do 3 f_equal.
  replace (55296 + n / 1024 - 55296) with (n / 1024) by lia.
  replace (56320 + n mod 1024 - 56320) with (n mod 1024) by lia.
  rewrite lor_shiftl by lia. change (2 ^ 10) with 1024.
  Z.to_euclidean_division_equations. lia.
Qed.

Lemma scanstring_high n tail chunks :
  55296 <= n <= 56319 ->
  json.low_escape tail = false ->
  json.scanstring (BACKSLASH :: 117 :: json.hex4 n ++ tail) chunks
  = json.scanstring tail (n :: chunks).
Proof.
  intros Hn Hl.
  destruct (decode_hex4 n) as (h1 & h2 & h3 & h4 & E & D); [lia|].
  rewrite E. cbn [json.scanstring app]. unfold BACKSLASH, QUOTE.
  cbn [Z.eqb Pos.eqb]. rewrite D.
  rewrite (leb_true 55296) by lia. rewrite (leb_true _ 56319) by lia.
  cbn [andb].
  destruct tail as [|b [|u s']]; try reflexivity.
  unfold json.low_escape, BACKSLASH in Hl.
  destruct ((b =? 92) && (u =? 117)) eqn:Ebu; [|reflexivity].
  cbn [andb] in Hl.
  destruct s' as [|l1 [|l2 [|l3 [|l4 s4]]]]; try discriminate.
  destruct (json.decode_uXXXX l1 l2 l3 l4) as [uni2|]; [|discriminate].
  rewrite Hl. reflexivity.
Qed.

Lemma low_escape_u4 m tail :
  0 <= m < 65536 -> ~ (56320 <= m <= 57343) ->
  json.low_escape (BACKSLASH :: 117 :: json.hex4 m ++ tail) = false.
Proof.
  intros Hm Hl.
  destruct (decode_hex4 m Hm) as (h1 & h2 & h3 & h4 & E & D).
  rewrite E. cbn [json.low_escape app]. rewrite D.
  unfold BACKSLASH. cbn [Z.eqb Pos.eqb andb].
  destruct (56320 <=? m) eqn:A; destruct (m <=? 57343) eqn:B; bool_hyps;
    try reflexivity.
  lia.
Qed.

(** The escape of a character that is no low surrogate does not complete
    a surrogate pair. *)
Lemma low_escape_escape_char c tail :
  code_point c = true -> low_surrogate c = false ->
  json.low_escape (json.escape_char c ++ tail) = false.
Proof.
  intros Hc Hl. unfold code_point in Hc. unfold low_surrogate in Hl.
  unfold json.escape_char.
  destruct (c =? BACKSLASH) eqn:E1; [reflexivity|].
  destruct (c =? QUOTE) eqn:E2; [reflexivity|].
  destruct ((32 <=? c) && (c <=? 126)) eqn:E3.
  { cbn [app json.low_escape]. destruct tail as [|u s']; [reflexivity|].
    rewrite E1. reflexivity. }
  destruct (c =? 8) eqn:E4; [reflexivity|].
  destruct (c =? 12) eqn:E5; [reflexivity|].
  destruct (c =? 10) eqn:E6; [reflexivity|].
  destruct (c =? 13) eqn:E7; [reflexivity|].
  destruct (c =? 9) eqn:E8; [reflexivity|].
  destruct (c <? 65536) eqn:E9.
  - clear E3. bool_hyps. apply low_escape_u4; [lia|].
    match goal with H : _ \/ _ |- _ => destruct H; bool_hyps; lia end.
  - clear E3 Hl. bool_hyps. cbv zeta. rewrite <- app_assoc.
    cbn [app].
    assert (Hn : 0 <= c - 65536 < 1048576) by lia.
    rewrite land_1023, shiftr_div by lia. change (2 ^ 10) with 1024.
    rewrite (lor_high 55296 54 _ 10)
      by (try reflexivity; try lia; apply Z.mod_pos_bound; lia).
    assert (Hq : 0 <= (c - 65536) / 1024 < 1024)
      by (Z.to_euclidean_division_equations; lia).
    rewrite (Z.mod_small ((c - 65536) / 1024)) by lia.
    apply low_escape_u4; lia.
Qed.

Lemma scanstring_escape c tail chunks :
  code_point c = true -> high_surrogate c = false ->
  json.scanstring (json.escape_char c ++ tail) chunks
  = json.scanstring tail (c :: chunks).
Proof.
  intros Hc Hh. unfold code_point in Hc. unfold high_surrogate in Hh.
  unfold json.escape_char.
  destruct (c =? BACKSLASH) eqn:E1; [apply Z.eqb_eq in E1; subst; reflexivity|].
  destruct (c =? QUOTE) eqn:E2; [apply Z.eqb_eq in E2; subst; reflexivity|].
  destruct ((32 <=? c) && (c <=? 126)) eqn:E3.
  { bool_hyps. apply scanstring_plain; assumption || lia. }
  destruct (c =? 8) eqn:E4; [apply Z.eqb_eq in E4; subst; reflexivity|].
  destruct (c =? 12) eqn:E5; [apply Z.eqb_eq in E5; subst; reflexivity|].
  destruct (c =? 10) eqn:E6; [apply Z.eqb_eq in E6; subst; reflexivity|].
  destruct (c =? 13) eqn:E7; [apply Z.eqb_eq in E7; subst; reflexivity|].
  destruct (c =? 9) eqn:E8; [apply Z.eqb_eq in E8; subst; reflexivity|].
  destruct (c <? 65536) eqn:E9.
  - clear E3. bool_hyps. apply scanstring_u4; [lia|].
    match goal with H : _ \/ _ |- _ => destruct H; bool_hyps; lia end.
  - clear E3. bool_hyps. cbv zeta. rewrite <- app_assoc.
    rewrite scanstring_pair by lia. do 3 f_equal. lia.
Qed.

Lemma escape_char_high c :
  high_surrogate c = true ->
  json.escape_char c = BACKSLASH :: 117 :: json.hex4 c.
Proof.
  intros Hh. unfold high_surrogate in Hh. bool_hyps.
  unfold json.escape_char, BACKSLASH, QUOTE. decide_tests.
  cbn [andb]. decide_tests. reflexivity.
Qed.

Lemma unicode_cons c s :
  unicode (c :: s) = true ->
  code_point c = true /\ unicode s = true
  /\ (high_surrogate c = true ->
      match s with d :: _ => low_surrogate d = false | [] => True end).
Proof.
  unfold unicode. cbn [forallb no_surrogate_pair]. intros H. bool_hyps.
  repeat split; try assumption.
  - apply andb_true_iff. split; assumption.
  - intros Hh.
    match goal with H : _ \/ _ |- _ => destruct H as [Hp|Hp] end;
      [congruence|]. destruct s; [exact I|assumption].
Qed.

Lemma scanstring_string (s : str) : forall tail chunks,
  unicode s = true ->
  json.scanstring (flat_map json.escape_char s ++ QUOTE :: tail) chunks
  = Some (rev chunks ++ s, tail).
Proof.
  induction s as [|c s IH]; intros tail chunks Hs.
  - cbn. rewrite app_nil_r. reflexivity.
  - destruct (unicode_cons _ _ Hs) as (Hc & Hs' & Hp).
    cbn [flat_map]. rewrite <- app_assoc.
    destruct (high_surrogate c) eqn:Hh.
    + rewrite escape_char_high by assumption. cbn [app].
      rewrite scanstring_high.
      * rewrite IH by assumption. cbn [rev]. rewrite <- app_assoc. reflexivity.
      * unfold high_surrogate in Hh. bool_hyps. lia.
      * destruct s as [|d s'].
        { cbn [flat_map app]. destruct tail as [|u s']; reflexivity. }
        { cbn [flat_map]. rewrite <- app_assoc.
          destruct (unicode_cons _ _ Hs') as (Hd & _ & _).
          apply low_escape_escape_char; [assumption|]. apply Hp. reflexivity. }
    + rewrite scanstring_escape by assumption.
      rewrite IH by assumption. cbn [rev]. rewrite <- app_assoc. reflexivity.
Qed.

(** ** Integers *)

Lemma pow2_S (k : nat) : 2 ^ Z.of_nat (S k) = 2 * 2 ^ Z.of_nat k.
Proof. rewrite Nat2Z.inj_succ, Z.pow_succ_r by lia. reflexivity. Qed.

Lemma digits_value fuel : forall n acc,
  0 <= n < 2 ^ Z.of_nat fuel ->
  fold_left (fun a c => a * 10 + (c - 48)) (json.digits fuel n acc) 0
  = fold_left (fun a c => a * 10 + (c - 48)) acc n.
Proof.
  induction fuel as [|fuel IH]; intros n acc Hn.
  - cbn in Hn. assert (n = 0) by lia. subst. reflexivity.
  - rewrite pow2_S in Hn. cbn [json.digits].
    destruct (n <? 10) eqn:E; bool_hyps.
    + cbn [fold_left]. f_equal. lia.
    + rewrite IH by (Z.to_euclidean_division_equations; lia).
      cbn [fold_left]. f_equal. Z.to_euclidean_division_equations. lia.
Qed.

Lemma digits_shape fuel : forall n acc,
  0 < n < 2 ^ Z.of_nat fuel ->
  Forall (fun c => scanner.is_digit c = true) acc ->
  exists d ds, json.digits fuel n acc = d :: ds /\ 49 <= d <= 57
               /\ Forall (fun c => scanner.is_digit c = true) ds.
Proof.
  induction fuel as [|fuel IH]; intros n acc Hn Hacc.
  - cbn in Hn. lia.
  - rewrite pow2_S in Hn. cbn [json.digits].
    destruct (n <? 10) eqn:E; bool_hyps.
    + exists (48 + n), acc. repeat split; try lia. assumption.
    + apply IH; [Z.to_euclidean_division_equations; lia|].
      constructor; [|assumption]. unfold scanner.is_digit.
      apply andb_true_iff; split; apply Z.leb_le;
        Z.to_euclidean_division_equations; lia.
Qed.

Lemma log2_fuel n : 0 < n -> n < 2 ^ Z.of_nat (S (Z.to_nat (Z.log2 n))).
Proof.
  intros Hn. rewrite Nat2Z.inj_succ, Z2Nat.id by apply Z.log2_nonneg.
  apply Z.log2_spec. assumption.
Qed.

Lemma parse_nat_repr n : 0 <= n -> scanner.parse_int (json.nat_repr n) = n.
Proof.
  intros Hn. unfold scanner.parse_int, json.nat_repr.
  destruct (Z.eq_dec n 0) as [-> | Hne]; [reflexivity|].
  rewrite digits_value; [reflexivity|]. split; [lia|]. apply log2_fuel. lia.
Qed.

Lemma nat_repr_shape n :
  0 <= n ->
  exists d ds, json.nat_repr n = d :: ds /\ 48 <= d <= 57
               /\ (d = 48 -> ds = [])
               /\ Forall (fun c => scanner.is_digit c = true) ds.
Proof.
  intros Hn. destruct (Z.eq_dec n 0) as [-> | Hne].
  - exists 48, []. repeat split; try lia. constructor.
  - destruct (digits_shape (S (Z.to_nat (Z.log2 n))) n [])
      as (d & ds & E & Hd & Hds);
      [split; [lia | apply log2_fuel; lia] | constructor |].
    exists d, ds. repeat split; try assumption; lia.
Qed.

Lemma nat_repr_head n :
  0 <= n -> exists d ds, json.nat_repr n = d :: ds /\ 48 <= d <= 57.
Proof.
  intros Hn. destruct (nat_repr_shape n Hn) as (d & ds & E & Hd & _).
  exists d, ds. split; assumption.
Qed.

Lemma int_of_str_repr z : scanner.int_of_str (json.int_repr z) = z.
Proof.
  unfold json.int_repr. destruct (z <? 0) eqn:E; bool_hyps.
  - cbn [scanner.int_of_str]. cbn [Z.eqb Pos.eqb].
    rewrite parse_nat_repr by lia. lia.
  - destruct (nat_repr_head z E) as (d & ds & Hd & Hrange).
    unfold scanner.int_of_str. rewrite Hd. rewrite eqb_false by lia.
    rewrite <- Hd. apply parse_nat_repr. assumption.
Qed.

(** ** The matcher of number literals *)

Lemma stops_char c rest :
  scanner.stops (c :: rest) ->
  scanner.is_digit c = false /\ (c =? 45) = false /\ (c =? 43) = false
  /\ (c =? 46) = false /\ (c =? 101) = false /\ (c =? 69) = false.
Proof.
  cbn. unfold scanner.is_number_char. intros H.
  repeat (apply orb_false_iff in H; destruct H as [H ?]).
  repeat split; assumption.
Qed.

Lemma at_delimiter_stops rest : json.at_delimiter rest = true -> scanner.stops rest.
Proof.
  destruct rest as [|c t]; [intros _; exact I|].
  unfold json.at_delimiter, scanner.stops. intros H.
  apply orb_true_iff in H. destruct H as [H | H];
    [apply orb_true_iff in H; destruct H as [H | H]|];
    apply Z.eqb_eq in H; subst; reflexivity.
Qed.

Lemma span_digits_sound s : forall d r,
  scanner.span_digits s = (d, r) ->
  s = d ++ r /\ Forall (fun c => scanner.is_digit c = true) d.
Proof.
  induction s as [|c s IH]; intros d r H; cbn in H.
  - inversion H; subst. split; [reflexivity | constructor].
  - destruct (scanner.is_digit c) eqn:Ec.
    + destruct (scanner.span_digits s) as [d' r'] eqn:E. inversion H; subst.
      destruct (IH _ _ eq_refl) as [-> Hd]. split; [reflexivity|].
      constructor; assumption.
    + inversion H; subst. split; [reflexivity | constructor].
Qed.

Lemma span_digits_ext s : forall d r rest,
  scanner.span_digits s = (d, r) -> scanner.stops rest ->
  scanner.span_digits (s ++ rest) = (d, r ++ rest).
Proof.
  induction s as [|c s IH]; intros d r rest H Hrest; cbn in H.
  - inversion H; subst. cbn [app]. destruct rest as [|x rest]; [reflexivity|].
    destruct (stops_char _ _ Hrest) as (Hx & _). cbn. rewrite Hx. reflexivity.
  - cbn [app scanner.span_digits]. destruct (scanner.is_digit c) eqn:Ec.
    + destruct (scanner.span_digits s) as [d' r'] eqn:E. inversion H; subst.
      rewrite (IH _ _ rest eq_refl Hrest). reflexivity.
    + inversion H; subst. reflexivity.
Qed.

Lemma span_digits_app ds : forall rest,
  Forall (fun c => scanner.is_digit c = true) ds ->
  match rest with [] => True | c :: _ => scanner.is_digit c = false end ->
  scanner.span_digits (ds ++ rest) = (ds, rest).
Proof.
  induction ds as [|d ds IH]; intros rest Hds Hrest.
  - destruct rest as [|c t]; [reflexivity|]. cbn. rewrite Hrest. reflexivity.
  - inversion Hds as [|? ? Hd Hds']; subst. cbn. rewrite Hd.
    rewrite IH by assumption. reflexivity.
Qed.

Lemma match_sign_sound s sg r :
  scanner.match_sign s = (sg, r) ->
  s = sg ++ r /\ Forall (fun c => scanner.is_number_char c = true) sg.
Proof.
  destruct s as [|c s]; cbn; intros H.
  - inversion H; subst. split; [reflexivity | constructor].
  - destruct (c =? 45) eqn:E; inversion H; subst.
    + apply Z.eqb_eq in E. subst. split; [reflexivity|].
      constructor; [reflexivity | constructor].
    + split; [reflexivity | constructor].
Qed.

Lemma match_sign_ext s sg r rest :
  scanner.match_sign s = (sg, r) -> scanner.stops rest ->
  scanner.match_sign (s ++ rest) = (sg, r ++ rest).
Proof.
  destruct s as [|c s]; cbn; intros H Hrest.
  - inversion H; subst. destruct rest as [|x rest]; [reflexivity|].
    destruct (stops_char _ _ Hrest) as (_ & Hx & _). cbn. rewrite Hx.
    reflexivity.
  - destruct (c =? 45); inversion H; subst; reflexivity.
Qed.

Lemma is_digit_number_char c :
  scanner.is_digit c = true -> scanner.is_number_char c = true.
Proof. intros H. unfold scanner.is_number_char. rewrite H. reflexivity. Qed.

Lemma digits_number_chars d :
  Forall (fun c => scanner.is_digit c = true) d ->
  Forall (fun c => scanner.is_number_char c = true) d.
Proof.
  intros H. eapply Forall_impl; [|exact H]. apply is_digit_number_char.
Qed.

Lemma match_integer_sound s d r :
  scanner.match_integer s = Some (d, r) ->
  s = d ++ r /\ Forall (fun c => scanner.is_digit c = true) d /\ d <> [].
Proof.
  destruct s as [|c s]; cbn; intros H; [discriminate|].
  destruct (c =? 48) eqn:E.
  - inversion H; subst. apply Z.eqb_eq in E. subst.
    repeat split; [constructor; [reflexivity | constructor] | discriminate].
  - destruct (scanner.is_digit c) eqn:Ec; [|discriminate].
    destruct (scanner.span_digits s) as [d' r'] eqn:Es. inversion H; subst.
    destruct (span_digits_sound _ _ _ Es) as [-> Hd].
    repeat split; [constructor; assumption | discriminate].
Qed.

Lemma match_integer_ext s d r rest :
  scanner.match_integer s = Some (d, r) -> scanner.stops rest ->
  scanner.match_integer (s ++ rest) = Some (d, r ++ rest).
Proof.
  destruct s as [|c s]; cbn; intros H Hrest; [discriminate|].
  destruct (c =? 48) eqn:E.
  - inversion H; subst. reflexivity.
  - destruct (scanner.is_digit c) eqn:Ec; [|discriminate].
    destruct (scanner.span_digits s) as [d' r'] eqn:Es. inversion H; subst.
    rewrite (span_digits_ext _ _ _ rest Es Hrest). reflexivity.
Qed.

Lemma match_frac_sound s f r :
  scanner.match_frac s = (f, r) ->
  s = f ++ r /\ Forall (fun c => scanner.is_number_char c = true) f.
Proof.
  unfold scanner.match_frac. intros H.
  destruct s as [|dot [|d s]]; try (inversion H; subst; split; [reflexivity | constructor]).
  destruct ((dot =? 46) && scanner.is_digit d) eqn:E.
  - destruct (scanner.span_digits s) as [ds r'] eqn:Es. inversion H; subst.
    destruct (span_digits_sound _ _ _ Es) as [-> Hd].
    apply andb_true_iff in E. destruct E as [E1 E2]. apply Z.eqb_eq in E1. subst.
    split; [reflexivity|].
    constructor; [reflexivity|].
    constructor; [apply is_digit_number_char; assumption|].
    apply digits_number_chars. assumption.
  - inversion H; subst. split; [reflexivity | constructor].
Qed.

Lemma match_frac_ext s f r rest :
  scanner.match_frac s = (f, r) -> scanner.stops rest ->
  scanner.match_frac (s ++ rest) = (f, r ++ rest).
Proof.
  unfold scanner.match_frac. intros H Hrest.
  destruct s as [|dot [|d s]].
  - inversion H; subst. cbn [app].
    destruct rest as [|x [|y rest]]; try reflexivity.
    destruct (stops_char _ _ Hrest) as (_ & _ & _ & Hx & _). rewrite Hx.
    reflexivity.
  - inversion H; subst. cbn [app].
    destruct rest as [|x rest]; [reflexivity|].
    destruct (stops_char _ _ Hrest) as (Hx & _). rewrite Hx.
    rewrite andb_false_r. reflexivity.
  - cbn [app]. destruct ((dot =? 46) && scanner.is_digit d) eqn:E.
    + destruct (scanner.span_digits s) as [ds r'] eqn:Es. inversion H; subst.
      rewrite (span_digits_ext _ _ _ rest Es Hrest). reflexivity.
    + inversion H; subst. reflexivity.
Qed.

Lemma match_exp_sound s e r :
  scanner.match_exp s = (e, r) ->
  s = e ++ r /\ Forall (fun c => scanner.is_number_char c = true) e.
Proof.
  unfold scanner.match_exp. intros H.
  destruct s as [|x [|c s]]; try (inversion H; subst; split; [reflexivity | constructor]).
  destruct ((x =? 101) || (x =? 69)) eqn:Ex;
    [|inversion H; subst; split; [reflexivity | constructor]].
  assert (Hx : scanner.is_number_char x = true).
  { unfold scanner.is_number_char. apply orb_true_iff in Ex.
    destruct Ex as [-> | ->]; rewrite ?orb_true_r; reflexivity. }
  destruct (scanner.is_digit c) eqn:Ec.
  - destruct (scanner.span_digits s) as [ds r'] eqn:Es. inversion H; subst.
    destruct (span_digits_sound _ _ _ Es) as [-> Hd].
    split; [reflexivity|].
    constructor; [assumption|].
    constructor; [apply is_digit_number_char; assumption|].
    apply digits_number_chars. assumption.
  - destruct ((c =? 43) || (c =? 45)) eqn:Es;
      [|inversion H; subst; split; [reflexivity | constructor]].
    assert (Hc : scanner.is_number_char c = true).
    { unfold scanner.is_number_char. apply orb_true_iff in Es.
      destruct Es as [-> | ->]; rewrite ?orb_true_r; reflexivity. }
    destruct s as [|d s];
      [inversion H; subst; split; [reflexivity | constructor]|].
    destruct (scanner.is_digit d) eqn:Ed;
      [|inversion H; subst; split; [reflexivity | constructor]].
    destruct (scanner.span_digits s) as [ds r'] eqn:Esp. inversion H; subst.
    destruct (span_digits_sound _ _ _ Esp) as [-> Hd].
    split; [reflexivity|].
    constructor; [assumption|]. constructor; [assumption|].
    constructor; [apply is_digit_number_char; assumption|].
    apply digits_number_chars. assumption.
Qed.

Lemma match_exp_ext s e r rest :
  scanner.match_exp s = (e, r) -> scanner.stops rest ->
  scanner.match_exp (s ++ rest) = (e, r ++ rest).
Proof.
  unfold scanner.match_exp. intros H Hrest.
  destruct s as [|x [|c s]].
  - inversion H; subst. cbn [app].
    destruct rest as [|a [|b rest]]; try reflexivity.
    destruct (stops_char _ _ Hrest) as (_ & _ & _ & _ & H1 & H2).
    rewrite H1, H2. reflexivity.
  - inversion H; subst. cbn [app].
    destruct rest as [|a rest]; [reflexivity|].
    destruct (stops_char _ _ Hrest) as (Ha & Hm & Hp & _).
    rewrite Ha, Hm, Hp. cbn [orb]. destruct ((x =? 101) || (x =? 69)); reflexivity.
  - cbn [app]. destruct ((x =? 101) || (x =? 69)) eqn:Ex;
      [|inversion H; subst; reflexivity].
    destruct (scanner.is_digit c) eqn:Ec.
    + destruct (scanner.span_digits s) as [ds r'] eqn:Es. inversion H; subst.
      rewrite (span_digits_ext _ _ _ rest Es Hrest). reflexivity.
    + destruct ((c =? 43) || (c =? 45)) eqn:Es;
        [|inversion H; subst; reflexivity].
      destruct s as [|d s].
      * inversion H; subst. cbn [app].
        destruct rest as [|a rest]; [reflexivity|].
        destruct (stops_char _ _ Hrest) as (Ha & _). rewrite Ha. reflexivity.
      * cbn [app]. destruct (scanner.is_digit d) eqn:Ed;
          [|inversion H; subst; reflexivity].
        destruct (scanner.span_digits s) as [ds r'] eqn:Esp. inversion H; subst.
        rewrite (span_digits_ext _ _ _ rest Esp Hrest). reflexivity.
Qed.

(** A match of [NUMBER_RE] is a prefix of the text, made of characters of
    numbers, and begins with a minus sign or a digit. *)
Lemma match_number_sound s integer frac exp r :
  scanner.match_number s = Some (integer, frac, exp, r) ->
  s = integer ++ frac ++ exp ++ r
  /\ Forall (fun c => scanner.is_number_char c = true) (integer ++ frac ++ exp)
  /\ exists c t, integer = c :: t /\ (c = 45 \/ scanner.is_digit c = true).
Proof.
  unfold scanner.match_number. intros H.
  destruct (scanner.match_sign s) as [sg s1] eqn:Esg.
  destruct (scanner.match_integer s1) as [[ds r0]|] eqn:Ei; [|discriminate].
  destruct (scanner.match_frac r0) as [f r1] eqn:Ef.
  destruct (scanner.match_exp r1) as [e r2] eqn:Ee.
  inversion H; subst. clear H.
  destruct (match_sign_sound _ _ _ Esg) as [Es Hsg].
  destruct (match_integer_sound _ _ _ Ei) as (E1 & Hds & Hne).
  destruct (match_frac_sound _ _ _ Ef) as [E0 Hf].
  destruct (match_exp_sound _ _ _ Ee) as [Er He].
  split; [subst; rewrite <- !app_assoc; reflexivity|]. split.
  - repeat (apply Forall_app; split); try assumption.
    apply digits_number_chars. assumption.
  - destruct ds as [|d ds']; [congruence|].
    inversion Hds as [|? ? Hd _]; subst d ds'.
    destruct s as [|c s]; cbn in Esg.
    + inversion Esg; subst sg. eexists _, _. split; [reflexivity|].
      right. assumption.
    + destruct (c =? 45) eqn:E; inversion Esg; subst sg.
      * apply Z.eqb_eq in E. subst c. eexists _, _. split; [reflexivity|].
        left. reflexivity.
      * eexists _, _. split; [reflexivity|]. right. assumption.
Qed.

(** A match is not changed by text that does not go on with a character
    of a number. *)
Lemma match_number_ext s integer frac exp r rest :
  scanner.match_number s = Some (integer, frac, exp, r) -> scanner.stops rest ->
  scanner.match_number (s ++ rest) = Some (integer, frac, exp, r ++ rest).
Proof.
  unfold scanner.match_number. intros H Hrest.
  destruct (scanner.match_sign s) as [sg s1] eqn:Esg.
  destruct (scanner.match_integer s1) as [[ds r0]|] eqn:Ei; [|discriminate].
  destruct (scanner.match_frac r0) as [f r1] eqn:Ef.
  destruct (scanner.match_exp r1) as [e r2] eqn:Ee.
  inversion H; subst.
  rewrite (match_sign_ext _ _ _ rest Esg Hrest).
  rewrite (match_integer_ext _ _ _ rest Ei Hrest).
  rewrite (match_frac_ext _ _ _ rest Ef Hrest).
  rewrite (match_exp_ext _ _ _ rest Ee Hrest).
  reflexivity.
Qed.

Lemma match_number_repr z :
  scanner.match_number (json.int_repr z) = Some (json.int_repr z, [], [], []).
Proof.
  assert (Hnat : forall n, 0 <= n ->
            scanner.match_integer (json.nat_repr n) = Some (json.nat_repr n, [])).
  { intros n Hn. destruct (nat_repr_shape n Hn) as (d & ds & E & Hd & Hz & Hds).
    rewrite E. cbn [scanner.match_integer].
    destruct (d =? 48) eqn:E0.
    - apply Z.eqb_eq in E0. rewrite (Hz E0). subst. reflexivity.
    - replace (scanner.is_digit d) with true
        by (symmetry; apply andb_true_iff; split; apply Z.leb_le; lia).
      rewrite <- (app_nil_r ds) at 1.
      rewrite span_digits_app by (assumption || exact I). reflexivity. }
  unfold scanner.match_number, json.int_repr.
  destruct (z <? 0) eqn:E; bool_hyps.
  - cbn [scanner.match_sign]. cbn [Z.eqb Pos.eqb]. rewrite Hnat by lia.
    reflexivity.
  - destruct (nat_repr_head z E) as (d & ds & Hd & Hrange).
    assert (Hm := Hnat z E). rewrite Hd in *.
    cbn [scanner.match_sign]. rewrite eqb_false by lia. rewrite Hm.
    reflexivity.
Qed.

(** ** Floats *)

Lemma number_char_range c :
  scanner.is_number_char c = true -> 43 <= c <= 101.
Proof.
  unfold scanner.is_number_char, scanner.is_digit. intros H.
  repeat (apply orb_true_iff in H; destruct H as [H | H]); bool_hyps; lia.
Qed.

Section Floats.
Context {F : Float64}.

Lemma float_repr_text x :
  exists integer frac exp,
    scanner.match_number (float_repr x) = Some (integer, frac, exp, [])
    /\ float_repr x = integer ++ frac ++ exp /\ frac ++ exp <> [].
Proof.
  destruct (float_repr_literal x) as (i & fr & e & Hm & Hne).
  exists i, fr, e. repeat split; try assumption.
  destruct (match_number_sound _ _ _ _ _ Hm) as (E & _).
  rewrite app_nil_r in E. exact E.
Qed.

Lemma floatstr_head f :
  exists c t, json.floatstr f = c :: t
              /\ (c = 45 \/ c = 73 \/ c = 78 \/ 48 <= c <= 57).
Proof.
  destruct f as [x | | | ].
  - destruct (float_repr_literal x) as (i & fr & e & Hm & _).
    destruct (match_number_sound _ _ _ _ _ Hm) as (E & _ & c & t & Ei & Hc).
    subst i. exists c, (t ++ fr ++ e ++ []). split; [exact E|].
    destruct Hc as [-> | Hc]; [left; reflexivity|].
    right. right. right. unfold scanner.is_digit in Hc. bool_hyps. lia.
  - eexists _, _. split; [reflexivity|]. right. left. reflexivity.
  - eexists _, _. split; [reflexivity|]. left. reflexivity.
  - eexists _, _. split; [reflexivity|]. right. right. left. reflexivity.
Qed.

Lemma floatstr_ascii f : Forall (fun c => 0 <= c < 128) (json.floatstr f).
Proof.
  destruct f as [x | | | ]; try (repeat constructor; lia).
  destruct (float_repr_literal x) as (i & fr & e & Hm & _).
  destruct (match_number_sound _ _ _ _ _ Hm) as (E & Hchars & _).
  rewrite app_nil_r in E. cbn [json.floatstr]. rewrite E.
  eapply Forall_impl; [|exact Hchars].
  intros c Hc. apply number_char_range in Hc. lia.
Qed.

Lemma scan_number_int z rest :
  json.at_delimiter rest = true ->
  json.scan_number (json.int_repr z ++ rest) = Some (JInt z, rest).
Proof.
  intros Hrest. unfold json.scan_number.
  rewrite (match_number_ext _ _ _ _ _ rest (match_number_repr z)
             (at_delimiter_stops _ Hrest)).
  cbn [app]. rewrite int_of_str_repr. reflexivity.
Qed.

Lemma scan_number_float f rest :
  json.at_delimiter rest = true ->
  json.scan_number (json.floatstr f ++ rest) = Some (JFloat f, rest).
Proof.
  intros Hrest. destruct f as [x | | | ]; try reflexivity.
  destruct (float_repr_text x) as (i & fr & e & Hm & E & Hne).
  unfold json.scan_number. cbn [json.floatstr].
  rewrite (match_number_ext _ _ _ _ _ rest Hm (at_delimiter_stops _ Hrest)).
  cbn [app]. destruct (fr ++ e) as [|c t] eqn:Efe; [congruence|].
  rewrite <- E. rewrite float_of_str_repr. reflexivity.
Qed.

End Floats.

(** ** Documents *)

Section Documents.
Context {F : Float64}.

Lemma value_induction (P : value -> Prop) :
  P JNull -> (forall b, P (JBool b)) -> (forall z, P (JInt z)) ->
  (forall f, P (JFloat f)) -> (forall s, P (JStr s)) ->
  (forall l, (forall x, In x l -> P x) -> P (JList l)) ->
  (forall l, (forall x, In x l -> P x) -> P (JTuple l)) ->
  (forall d, (forall k x, In (k, x) d -> P x) -> P (JDict d)) ->
  forall v, P v.
Proof.
  intros Hnull Hbool Hint Hfloat Hstr Hlist Htuple Hdict. fix IH 1.
  intros [ | b | z | f | s | l | l | d].
  - exact Hnull.
  - apply Hbool.
  - apply Hint.
  - apply Hfloat.
  - apply Hstr.
  - apply Hlist. induction l as [|y l IHl]; intros x Hin.
    + destruct Hin.
    + destruct Hin as [<- | Hin]; [apply IH | exact (IHl x Hin)].
  - apply Htuple. induction l as [|y l IHl]; intros x Hin.
    + destruct Hin.
    + destruct Hin as [<- | Hin]; [apply IH | exact (IHl x Hin)].
  - apply Hdict. induction d as [|[k' y] d IHd]; intros k x Hin.
    + destruct Hin.
    + pose proof (IH y) as Py.
      destruct Hin as [E | Hin]; [inversion E; subst; exact Py | exact (IHd k x Hin)].
Qed.

Lemma str_eqb_eq a : forall b, str_eqb a b = true <-> a = b.
Proof.
  induction a as [|x a IH]; intros [|y b]; cbn; split; intros H;
    try reflexivity; try discriminate.
  - apply andb_true_iff in H. destruct H as [H1 H2].
    apply Z.eqb_eq in H1. apply IH in H2. subst. reflexivity.
  - inversion H; subst. rewrite Z.eqb_refl. cbn. apply IH. reflexivity.
Qed.

Lemma str_eqb_sym a b : str_eqb a b = str_eqb b a.
Proof.
  destruct (str_eqb a b) eqn:E1; destruct (str_eqb b a) eqn:E2; try reflexivity.
  - apply str_eqb_eq in E1. subst. rewrite (proj2 (str_eqb_eq b b) eq_refl) in E2.
    discriminate.
  - apply str_eqb_eq in E2. subst. rewrite (proj2 (str_eqb_eq a a) eq_refl) in E1.
    discriminate.
Qed.

Lemma dict_setitem_new k v : forall d,
  existsb (str_eqb k) (map fst d) = false -> dict_setitem k v d = d ++ [(k, v)].
Proof.
  induction d as [|[k' v'] d IH]; intros H; [reflexivity|].
  cbn in H. apply orb_false_iff in H. destruct H as [H1 H2].
  cbn. rewrite H1. rewrite IH by assumption. reflexivity.
Qed.

Lemma fold_setitem_distinct d : forall acc,
  distinct (map fst d) = true ->
  (forall kv, In kv d -> existsb (str_eqb (fst kv)) (map fst acc) = false) ->
  fold_left (fun d kv => dict_setitem (fst kv) (snd kv) d) d acc = acc ++ d.
Proof.
  induction d as [|[k v] d IH]; intros acc Hd Hacc.
  - cbn. rewrite app_nil_r. reflexivity.
  - cbn [map fst distinct] in Hd. apply andb_true_iff in Hd.
    destruct Hd as [Hk Hd]. apply negb_true_iff in Hk.
    cbn [fold_left fst snd]. rewrite dict_setitem_new by (apply (Hacc (k, v)); left; reflexivity).
    rewrite IH.
    + rewrite <- app_assoc. reflexivity.
    + assumption.
    + intros kv Hin. rewrite map_app, existsb_app. cbn [map fst existsb].
      rewrite (Hacc kv) by (right; assumption). cbn [orb]. rewrite orb_false_r.
      rewrite str_eqb_sym.
      destruct (str_eqb k (fst kv)) eqn:E; [|reflexivity].
      assert (Hex : existsb (str_eqb k) (map fst d) = true).
      { apply existsb_exists. exists (fst kv). split; [apply in_map; assumption | assumption]. }
      congruence.
Qed.

Lemma dict_distinct d : distinct (map fst d) = true -> dict d = d.
Proof.
  intros Hd. unfold dict. rewrite fold_setitem_distinct; [reflexivity | assumption |].
  intros kv _. reflexivity.
Qed.

(** A [dict] whose keys are of type [str] is the list of its items with
    [str] keys. *)
Lemma str_keys_key_strs d :
  forallb (fun kv => is_str (fst kv)) d = true -> str_keys (key_strs d) = d.
Proof.
  induction d as [|[k v] d IH]; intros H; [reflexivity|].
  cbn [forallb fst] in H. apply andb_true_iff in H. destruct H as [Hk Hd].
  cbn [key_strs str_keys map fst snd]. destruct k; try discriminate.
  cbn [key_str]. f_equal. apply IH. assumption.
Qed.

Lemma map_item_key_strs d :
  forallb (fun kv => is_str (fst kv)) d = true ->
  map item d = map str_item (key_strs d).
Proof.
  induction d as [|[k v] d IH]; intros H; [reflexivity|].
  cbn [forallb fst] in H. apply andb_true_iff in H. destruct H as [Hk Hd].
  cbn [key_strs map fst snd]. destruct k; try discriminate.
  cbn [key_str json.key_text]. f_equal. apply IH. assumption.
Qed.

Lemma document_dict d :
  document (JDict d) = true ->
  forallb (fun kv => is_str (fst kv)) d = true
  /\ distinct (map fst (key_strs d)) = true
  /\ forallb (fun kv => unicode (fst kv) && document (snd kv)) (key_strs d)
     = true.
Proof.
  cbn [document]. intros H. apply andb_true_iff in H. destruct H as [Hk Hd].
  split; [|split].
  - apply forallb_forall. intros kv Hin.
    assert (Hx := proj1 (forallb_forall _ _) Hd kv Hin). cbv beta in Hx.
    apply andb_true_iff in Hx. destruct Hx as [Hx _].
    apply andb_true_iff in Hx. destruct Hx as [Hx _]. exact Hx.
  - unfold key_strs. rewrite map_map. cbn [fst]. exact Hk.
  - unfold key_strs. apply forallb_forall. intros kv Hin.
    apply in_map_iff in Hin. destruct Hin as (kv0 & <- & Hin0).
    assert (Hx := proj1 (forallb_forall _ _) Hd kv0 Hin0). cbv beta in Hx.
    apply andb_true_iff in Hx. destruct Hx as [Hx Hv].
    apply andb_true_iff in Hx. destruct Hx as [_ Hu].
    cbn [fst snd]. rewrite Hu, Hv. reflexivity.
Qed.

Lemma in_key_strs k y d :
  In (k, y) (key_strs d) -> exists k0, In (k0, y) d.
Proof.
  unfold key_strs. intros Hin. apply in_map_iff in Hin.
  destruct Hin as ([k0 y0] & E & Hin). cbn [fst snd] in E.
  inversion E; subst. exists k0. assumption.
Qed.

End Documents.

(** ** The decoder on the output of the encoder *)

Section Heads.
Context {F : Float64}.

Lemma is_ws_digit c : 45 <= c <= 57 -> json.is_ws c = false.
Proof. intros H. unfold json.is_ws. decide_tests. reflexivity. Qed.

Lemma int_repr_head z :
  exists c t, json.int_repr z = c :: t /\ 45 <= c <= 57.
Proof.
  unfold json.int_repr. destruct (z <? 0) eqn:E; bool_hyps.
  - exists 45, (json.nat_repr (- z)). split; [reflexivity | lia].
  - destruct (nat_repr_head z E) as (d & ds & Hd & Hr).
    exists d, ds. split; [assumption | lia].
Qed.

(** The first character of an encoded value: not whitespace and not a
    closing bracket. *)
Lemma dumps_head v :
  exists c t, json.dumps v = c :: t /\ json.is_ws c = false /\ c <> 93.
Proof.
  destruct v as [ | [|] | z | f | s | l | l | d].
  - exists 110, (lit "ull"). repeat split; try reflexivity; discriminate.
  - exists 116, (lit "rue"). repeat split; try reflexivity; discriminate.
  - exists 102, (lit "alse"). repeat split; try reflexivity; discriminate.
  - destruct (int_repr_head z) as (c & t & E & Hc).
    exists c, t. split; [exact E | split; [apply is_ws_digit; lia | lia]].
  - destruct (floatstr_head f) as (c & t & E & Hc).
    exists c, t. split; [exact E|].
    destruct Hc as [-> | [-> | [-> | Hc]]];
      try (split; [reflexivity | discriminate]).
    split; [apply is_ws_digit; lia | lia].
  - eexists _, _. split; [reflexivity | split; [reflexivity | discriminate]].
  - eexists _, _. split; [reflexivity | split; [reflexivity | discriminate]].
  - eexists _, _. split; [reflexivity | split; [reflexivity | discriminate]].
  - eexists _, _. split; [reflexivity | split; [reflexivity | discriminate]].
Qed.

Lemma join_cons2 (p q : str) ps :
  json.join sep (p :: q :: ps) = p ++ sep ++ json.join sep (q :: ps).
Proof. reflexivity. Qed.

Lemma join_head c t ps :
  exists t', json.join sep ((c :: t) :: ps) = c :: t'.
Proof. destruct ps; eexists; reflexivity. Qed.

Lemma skip_ws_head c t : json.is_ws c = false -> json.skip_ws (c :: t) = c :: t.
Proof. intros H. cbn. rewrite H. reflexivity. Qed.

Lemma skip_ws_items y l r :
  json.skip_ws (json.join sep (map json.dumps (y :: l)) ++ r)
  = json.join sep (map json.dumps (y :: l)) ++ r.
Proof.
  destruct (dumps_head y) as (c & t & E & Hws & _).
  cbn [map]. rewrite E. destruct (join_head c t (map json.dumps l)) as (t' & ->).
  apply skip_ws_head. assumption.
Qed.

End Heads.

Section Arrays.
Context {F : Float64}.

Lemma array_loop_items l : forall x fuel acc rest,
  (forall y, In y (x :: l) -> scans y) ->
  forallb document (x :: l) = true ->
  (List.length (json.join sep (map json.dumps (x :: l))) < fuel)%nat ->
  json.array_loop fuel (json.join sep (map json.dumps (x :: l)) ++ 93 :: rest) acc
  = Some (JList (rev acc ++ x :: l), rest).
Proof.
  induction l as [|y l IH]; intros x fuel acc rest HP Hdoc Hfuel;
    cbn [forallb] in Hdoc; apply andb_true_iff in Hdoc; destruct Hdoc as [Hx Hl].
  - change (json.join sep (map json.dumps [x])) with (json.dumps x) in *.
    destruct fuel as [|f]; [lia|]. cbn [json.array_loop].
    rewrite (HP x (or_introl eq_refl) Hx) by (lia || reflexivity).
    reflexivity.
  - change (map json.dumps (x :: y :: l))
      with (json.dumps x :: json.dumps y :: map json.dumps l) in *.
    rewrite join_cons2 in *.
    change (json.dumps y :: map json.dumps l) with (map json.dumps (y :: l)) in *.
    rewrite !length_app in Hfuel. rewrite <- !app_assoc.
    destruct fuel as [|f]; [lia|]. cbn [json.array_loop].
    rewrite (HP x (or_introl eq_refl) Hx) by (lia || reflexivity).
    change (json.skip_ws (sep ++ json.join sep (map json.dumps (y :: l)) ++ 93 :: rest))
      with (44 :: 32 :: json.join sep (map json.dumps (y :: l)) ++ 93 :: rest).
    cbv iota beta. change (44 =? 93) with false. change (44 =? 44) with true.
    cbv iota.
    change (json.skip_ws (32 :: ?X)) with (json.skip_ws X).
    rewrite skip_ws_items.
    rewrite IH.
    + cbn [rev]. rewrite <- app_assoc. reflexivity.
    + intros z Hz. apply HP. right. assumption.
    + assumption.
    + change (List.length sep) with 2%nat in Hfuel. lia.
Qed.

End Arrays.

Section Objects.
Context {F : Float64}.

Lemma skip_ws_dumps v r : json.skip_ws (json.dumps v ++ r) = json.dumps v ++ r.
Proof.
  destruct (dumps_head v) as (c & t & E & Hws & _). rewrite E.
  apply skip_ws_head. assumption.
Qed.

Lemma items_head k v d :
  exists text, json.join sep (map str_item ((k, v) :: d)) = QUOTE :: text.
Proof. destruct d; eexists; reflexivity. Qed.

Lemma item_text k v :
  str_item (k, v)
  = QUOTE :: flat_map json.escape_char k ++ QUOTE :: 58 :: 32 :: json.dumps v.
Proof.
  cbv beta iota. cbn [fst snd]. unfold json.encode_basestring_ascii.
  cbn [app]. rewrite <- app_assoc. reflexivity.
Qed.

Lemma object_loop_items d : forall k v fuel acc rest text,
  (forall k' y, In (k', y) ((k, v) :: d) -> scans y) ->
  forallb (fun kv => unicode (fst kv) && document (snd kv)) ((k, v) :: d) = true ->
  json.join sep (map str_item ((k, v) :: d)) = QUOTE :: text ->
  (List.length text < fuel)%nat ->
  json.object_loop fuel (text ++ 125 :: rest) acc
  = Some (JDict (str_keys (dict (rev acc ++ (k, v) :: d))), rest).
Proof.
  induction d as [|[k2 v2] d IH]; intros k v fuel acc rest text HP Hdoc Htext Hfuel;
    cbn [forallb fst snd] in Hdoc; apply andb_true_iff in Hdoc;
    destruct Hdoc as [Hkv Hd]; apply andb_true_iff in Hkv; destruct Hkv as [Hk Hv].
  - change (json.join sep (map str_item [(k, v)])) with (str_item (k, v)) in Htext.
    cbv beta iota in Htext. rewrite item_text in Htext. injection Htext as <-.
    rewrite length_app in Hfuel. cbn [List.length] in Hfuel.
    rewrite <- app_assoc. cbn [app].
    destruct fuel as [|f]; [lia|]. cbn [json.object_loop].
    rewrite scanstring_string by assumption. cbn [rev app].
    change (json.skip_ws (58 :: 32 :: ?X)) with (58 :: 32 :: X).
    cbv iota beta. change (58 =? 58) with true. cbv iota.
    change (json.skip_ws (32 :: ?X)) with (json.skip_ws X).
    rewrite skip_ws_dumps.
    rewrite (HP k v (or_introl eq_refl) Hv) by (lia || reflexivity).
    reflexivity.
  - destruct (items_head k2 v2 d) as (text2 & Htext2).
    assert (Htext' : QUOTE :: flat_map json.escape_char k
                       ++ QUOTE :: 58 :: 32 :: json.dumps v
                       ++ 44 :: 32 :: QUOTE :: text2 = QUOTE :: text).
    { rewrite <- Htext. rewrite <- Htext2.
      change (map str_item ((k, v) :: (k2, v2) :: d))
        with (str_item (k, v) :: str_item (k2, v2) :: map str_item d).
      rewrite join_cons2. rewrite item_text.
      cbn [app]. rewrite <- app_assoc. reflexivity. }
    clear Htext. rename Htext' into Htext.
    injection Htext as <-.
    rewrite !length_app in Hfuel. cbn [List.length] in Hfuel.
    rewrite !length_app in Hfuel. cbn [List.length] in Hfuel.
    rewrite <- !app_assoc. cbn [app]. rewrite <- !app_assoc. cbn [app].
    destruct fuel as [|f]; [lia|]. cbn [json.object_loop].
    rewrite scanstring_string by assumption. cbn [rev app].
    change (json.skip_ws (58 :: 32 :: ?X)) with (58 :: 32 :: X).
    cbv iota beta. change (58 =? 58) with true. cbv iota.
    change (json.skip_ws (32 :: ?X)) with (json.skip_ws X).
    rewrite skip_ws_dumps.
    rewrite (HP k v (or_introl eq_refl) Hv) by (lia || reflexivity).
    change (json.skip_ws (44 :: 32 :: QUOTE :: ?X)) with (44 :: 32 :: QUOTE :: X).
    cbv iota beta. change (44 =? 125) with false. change (44 =? 44) with true.
    cbv iota.
    change (json.skip_ws (32 :: QUOTE :: ?X)) with (QUOTE :: X).
    cbv iota beta. change (QUOTE =? QUOTE) with true. cbv iota.
    rewrite (IH k2 v2 f ((k, v) :: acc) rest text2).
    + cbn [rev]. rewrite <- app_assoc. reflexivity.
    + intros k' y Hin. apply (HP k' y). right. assumption.
    + assumption.
    + assumption.
    + lia.
Qed.

End Objects.

Section Decoder.
Context {F : Float64}.

Lemma scan_once_dumps : forall v, scans v.
Proof.
  induction v as [ | b | z | x | s | l IH | l IH | d IH] using value_induction;
    intros Hdoc fuel rest Hfuel Hrest;
    (destruct fuel as [|f];
     [ match type of Hfuel with
       | (List.length (json.dumps ?v) <= _)%nat =>
           destruct (dumps_head v) as (c & t & E & _)
       end; rewrite E in Hfuel; cbn in Hfuel; lia |]).
  - reflexivity.
  - destruct b; reflexivity.
  - destruct (int_repr_head z) as (c & t & E & Hc).
    assert (Hn := scan_number_int z rest Hrest).
    change (json.dumps (JInt z)) with (json.int_repr z) in *.
    rewrite E in *. cbn [app] in *. cbn [json.scan_once].
    unfold QUOTE. decide_tests. exact Hn.
  - destruct (floatstr_head x) as (c & t & E & Hc).
    assert (Hn := scan_number_float x rest Hrest).
    change (json.dumps (JFloat x)) with (json.floatstr x) in *.
    rewrite E in *. cbn [app] in *. cbn [json.scan_once].
    unfold QUOTE. decide_tests. exact Hn.
  - cbn [document] in Hdoc.
    change (json.dumps (JStr s))
      with (QUOTE :: flat_map json.escape_char s ++ [QUOTE]).
    cbn [app]. rewrite <- app_assoc. cbn [app json.scan_once].
    change (QUOTE =? QUOTE) with true. cbv iota.
    rewrite scanstring_string by assumption. reflexivity.
  - cbn [document] in Hdoc.
    change (json.dumps (JList l))
      with (91 :: json.join sep (map json.dumps l) ++ [93]) in *.
    cbn [List.length] in Hfuel. rewrite length_app in Hfuel.
    cbn [List.length] in Hfuel.
    cbn [app]. rewrite <- app_assoc. cbn [app json.scan_once].
    change (91 =? QUOTE) with false. change (91 =? 123) with false.
    change (91 =? 91) with true. cbv iota.
    destruct l as [|x l]; [reflexivity|].
    rewrite skip_ws_items.
    destruct (dumps_head x) as (c & t & E & Hws & Hc).
    destruct (join_head c t (map json.dumps l)) as (t' & Ht').
    assert (Hl := array_loop_items l x f [] rest IH Hdoc ltac:(lia)).
    cbn [map] in *. rewrite E in *. rewrite Ht' in *. cbn [app] in *.
    rewrite eqb_false by assumption. exact Hl.
  - discriminate Hdoc.
  - destruct (document_dict d Hdoc) as (Hstr & Hkeys & Hitems).
    change (json.dumps (JDict d))
      with (123 :: json.join sep (map item d) ++ [125]) in *.
    rewrite (map_item_key_strs d Hstr) in *.
    rewrite <- (str_keys_key_strs d Hstr) at 2.
    assert (IH' : forall k y, In (k, y) (key_strs d) -> scans y).
    { intros k y Hin. destruct (in_key_strs _ _ _ Hin) as (k0 & Hin0).
      exact (IH k0 y Hin0). }
    clear IH Hdoc Hstr. revert Hkeys Hitems IH' Hfuel.
    generalize (key_strs d). clear d. intros d Hkeys Hdoc IH Hfuel.
    cbn [List.length] in Hfuel. rewrite length_app in Hfuel.
    cbn [List.length] in Hfuel.
    cbn [app]. rewrite <- app_assoc. cbn [app json.scan_once].
    change (123 =? QUOTE) with false. change (123 =? 123) with true. cbv iota.
    destruct d as [|[k v] d]; [reflexivity|].
    destruct (items_head k v d) as (text & Htext).
    assert (Hd := object_loop_items d k v f [] rest text IH Hdoc Htext).
    rewrite Htext in *. cbn [List.length] in Hfuel. cbn [app].
    change (json.skip_ws (QUOTE :: ?X)) with (QUOTE :: X). cbv iota beta.
    change (QUOTE =? 125) with false. change (QUOTE =? QUOTE) with true.
    cbv iota. rewrite Hd by lia. cbn [rev app].
    rewrite dict_distinct by assumption. reflexivity.
Qed.

Lemma loads_dumps v : document v = true -> json.loads (json.dumps v) = Some v.
Proof.
  intros Hdoc. unfold json.loads. cbv zeta.
  assert (Hws : json.skip_ws (json.dumps v) = json.dumps v).
  { rewrite <- (app_nil_r (json.dumps v)). apply skip_ws_dumps. }
  rewrite Hws.
  pose proof (scan_once_dumps v Hdoc (S (List.length (json.dumps v))) []
                ltac:(lia) eq_refl) as H.
  rewrite app_nil_r in H. rewrite H. reflexivity.
Qed.

End Decoder.

(** ** The encoder writes ASCII *)

Lemma hexdigit_ascii x : 0 <= json.hexdigit (Z.land x 15) < 128.
Proof.
  rewrite land_15. assert (0 <= x mod 16 < 16) by (apply Z.mod_pos_bound; lia).
  unfold json.hexdigit. destruct (x mod 16 <? 10); lia.
Qed.

Lemma hex4_ascii n : Forall (fun c => 0 <= c < 128) (json.hex4 n).
Proof. unfold json.hex4. repeat constructor; apply hexdigit_ascii. Qed.

Lemma escape_char_ascii c : Forall (fun c => 0 <= c < 128) (json.escape_char c).
Proof.
  unfold json.escape_char, BACKSLASH, QUOTE.
  repeat match goal with
  | |- context [if ?b then _ else _] => destruct b eqn:?
  end; bool_hyps; cbv zeta;
  repeat first [ apply hex4_ascii | apply Forall_app; split | apply Forall_cons
               | apply Forall_nil | cbv beta; unfold BACKSLASH, QUOTE; lia ].
Qed.

Lemma flat_map_ascii s :
  Forall (fun c => 0 <= c < 128) (flat_map json.escape_char s).
Proof.
  induction s as [|c s IH]; cbn [flat_map]; [constructor|].
  apply Forall_app. split; [apply escape_char_ascii | assumption].
Qed.

Lemma encode_basestring_ascii_ascii s :
  Forall (fun c => 0 <= c < 128) (json.encode_basestring_ascii s).
Proof.
  unfold json.encode_basestring_ascii, QUOTE. constructor; [lia|].
  apply Forall_app. split; [apply flat_map_ascii | repeat constructor; lia].
Qed.

Lemma digits_ascii fuel : forall n acc,
  0 <= n -> Forall (fun c => 0 <= c < 128) acc ->
  Forall (fun c => 0 <= c < 128) (json.digits fuel n acc).
Proof.
  induction fuel as [|fuel IH]; intros n acc Hn Hacc; cbn [json.digits];
    [assumption|].
  destruct (n <? 10) eqn:E; bool_hyps.
  - constructor; [lia | assumption].
  - apply IH; [Z.to_euclidean_division_equations; lia|].
    constructor; [Z.to_euclidean_division_equations; lia | assumption].
Qed.

Lemma int_repr_ascii z : Forall (fun c => 0 <= c < 128) (json.int_repr z).
Proof.
  unfold json.int_repr, json.nat_repr. destruct (z <? 0) eqn:E; bool_hyps.
  - constructor; [lia|]. apply digits_ascii; [lia | constructor].
  - apply digits_ascii; [lia | constructor].
Qed.

Lemma join_ascii parts :
  Forall (Forall (fun c => 0 <= c < 128)) parts ->
  Forall (fun c => 0 <= c < 128) (json.join sep parts).
Proof.
  induction parts as [|p ps IH]; intros H; [constructor|].
  inversion H as [|? ? Hp Hps]; subst. destruct ps as [|q ps]; [exact Hp|].
  rewrite join_cons2. apply Forall_app. split; [assumption|].
  apply Forall_app. split; [repeat constructor; lia | apply IH; assumption].
Qed.

Section Ascii.
Context {F : Float64}.

Lemma dumps_ascii v : Forall (fun c => 0 <= c < 128) (json.dumps v).
Proof.
  induction v as [ | b | z | f | s | l IH | l IH | d IH] using value_induction.
  - repeat constructor; lia.
  - destruct b; repeat constructor; lia.
  - apply int_repr_ascii.
  - apply floatstr_ascii.
  - apply encode_basestring_ascii_ascii.
  - change (json.dumps (JList l))
      with (91 :: json.join sep (map json.dumps l) ++ [93]).
    constructor; [lia|]. apply Forall_app. split; [|repeat constructor; lia].
    apply join_ascii. apply Forall_forall. intros p Hp.
    apply in_map_iff in Hp. destruct Hp as (x & <- & Hx). apply IH. assumption.
  - change (json.dumps (JTuple l))
      with (91 :: json.join sep (map json.dumps l) ++ [93]).
    constructor; [lia|]. apply Forall_app. split; [|repeat constructor; lia].
    apply join_ascii. apply Forall_forall. intros p Hp.
    apply in_map_iff in Hp. destruct Hp as (x & <- & Hx). apply IH. assumption.
  - change (json.dumps (JDict d))
      with (123 :: json.join sep (map item d) ++ [125]).
    constructor; [lia|]. apply Forall_app. split; [|repeat constructor; lia].
    apply join_ascii. apply Forall_forall. intros p Hp.
    apply in_map_iff in Hp. destruct Hp as ([k x] & <- & Hx).
    apply Forall_app. split; [apply encode_basestring_ascii_ascii|].
    apply Forall_app. split; [repeat constructor; lia | apply (IH k x Hx)].
Qed.

End Ascii.

(** ** UTF-8 on ASCII text *)

Lemma utf8_encode_ascii s :
  Forall (fun c => 0 <= c < 128) s -> utf8_encode s = Some s.
Proof.
  induction 1 as [|c s Hc Hs IH]; [reflexivity|].
  cbn [utf8_encode]. rewrite IH. decide_tests. reflexivity.
Qed.

Lemma utf8_decode_ascii s :
  Forall (fun c => 0 <= c < 128) s -> utf8_decode s = Some s.
Proof.
  induction 1 as [|c s Hc Hs IH]; [reflexivity|].
  cbn [utf8_decode]. rewrite IH. unfold between. decide_tests. reflexivity.
Qed.

(** ** base64 *)

Lemma table_roundtrip i :
  0 <= i < 64 ->
  base64.table_a2b (base64.table_b2a i) = Some i
  /\ (base64.table_b2a i =? base64.PAD) = false.
Proof.
  intros Hi. unfold base64.table_b2a, base64.PAD.
  destruct (i <? 26) eqn:E1; [|destruct (i <? 52) eqn:E2;
    [|destruct (i <? 62) eqn:E3; [|destruct (i =? 62) eqn:E4]]];
    bool_hyps; unfold base64.table_a2b, between; decide_tests;
    cbn [andb]; (split; [f_equal; lia | reflexivity]).
Qed.

Ltac arith := try (Z.to_euclidean_division_equations; lia).

(** The four characters of a full group decode to its three bytes. *)
Lemma a2b_group a b c r lc :
  0 <= a < 256 -> 0 <= b < 256 -> 0 <= c < 256 ->
  base64.a2b_base64
    (base64.table_b2a (Z.shiftr a 2)
       :: base64.table_b2a (Z.lor (Z.shiftl (Z.land a 3) 4) (Z.shiftr b 4))
       :: base64.table_b2a (Z.lor (Z.shiftl (Z.land b 15) 2) (Z.shiftr c 6))
       :: base64.table_b2a (Z.land c 63) :: r) 0 lc 0
  = ' out <- base64.a2b_base64 r 0 0 0 ;; Some (a :: b :: c :: out).
Proof.
  intros Ha Hb Hc.
  rewrite !shiftr_div, land_3, land_15, land_63 by lia.
  change (2 ^ 2) with 4. change (2 ^ 4) with 16. change (2 ^ 6) with 64.
  rewrite !lor_shiftl by (change (2 ^ 4) with 16; change (2 ^ 2) with 4; arith).
  change (2 ^ 2) with 4. change (2 ^ 4) with 16.
  destruct (table_roundtrip (a / 4)) as [T1 P1]; [arith|].
  destruct (table_roundtrip (a mod 4 * 16 + b / 16)) as [T2 P2]; [arith|].
  destruct (table_roundtrip (b mod 16 * 4 + c / 64)) as [T3 P3]; [arith|].
  destruct (table_roundtrip (c mod 64)) as [T4 P4]; [arith|].
  cbn [base64.a2b_base64].
  rewrite P1, T1. cbn [Z.eqb]. rewrite P2, T2. cbn [Z.eqb Pos.eqb].
  rewrite P3, T3. cbn [Z.eqb Pos.eqb]. rewrite P4, T4. cbn [Z.eqb Pos.eqb].
  destruct (base64.a2b_base64 r 0 0 0) as [out|]; [|reflexivity].
  rewrite !shiftr_div, land_3, land_15 by lia.
  change (2 ^ 2) with 4. change (2 ^ 4) with 16.
  rewrite !lor_shiftl by (change (2 ^ 6) with 64; change (2 ^ 4) with 16;
                          change (2 ^ 2) with 4; arith).
  change (2 ^ 2) with 4. change (2 ^ 4) with 16. change (2 ^ 6) with 64.
  f_equal. f_equal; [arith|]. f_equal; [arith|]. f_equal. arith.
Qed.

Lemma a2b_last1 a :
  0 <= a < 256 -> base64.a2b_base64 (base64.b64encode [a]) 0 0 0 = Some [a].
Proof.
  intros Ha. cbn [base64.b64encode].
  rewrite shiftr_div, land_3 by lia. rewrite Z.shiftl_mul_pow2 by lia.
  change (2 ^ 2) with 4. change (2 ^ 4) with 16.
  destruct (table_roundtrip (a / 4)) as [T1 P1]; [arith|].
  destruct (table_roundtrip (a mod 4 * 16)) as [T2 P2]; [arith|].
  cbn [base64.a2b_base64].
  rewrite P1, T1. cbn [Z.eqb]. rewrite P2, T2. cbn [Z.eqb Pos.eqb].
  change (base64.PAD =? base64.PAD) with true.
  cbn [base64.a2b_base64 Z.leb Z.compare Pos.compare Pos.compare_cont Z.add Pos.add Pos.succ Z.eqb Pos.eqb].
  rewrite shiftr_div by lia. change (2 ^ 4) with 16.
  rewrite lor_shiftl by (change (2 ^ 2) with 4; arith).
  change (2 ^ 2) with 4. do 2 f_equal. arith.
Qed.

Lemma a2b_last2 a b :
  0 <= a < 256 -> 0 <= b < 256 ->
  base64.a2b_base64 (base64.b64encode [a; b]) 0 0 0 = Some [a; b].
Proof.
  intros Ha Hb. cbn [base64.b64encode].
  rewrite !shiftr_div, land_3, land_15 by lia. rewrite (Z.shiftl_mul_pow2 _ 2) by lia.
  change (2 ^ 2) with 4. change (2 ^ 4) with 16.
  rewrite lor_shiftl by (change (2 ^ 4) with 16; arith). change (2 ^ 4) with 16.
  destruct (table_roundtrip (a / 4)) as [T1 P1]; [arith|].
  destruct (table_roundtrip (a mod 4 * 16 + b / 16)) as [T2 P2]; [arith|].
  destruct (table_roundtrip (b mod 16 * 4)) as [T3 P3]; [arith|].
  cbn [base64.a2b_base64].
  rewrite P1, T1. cbn [Z.eqb]. rewrite P2, T2. cbn [Z.eqb Pos.eqb].
  rewrite P3, T3. cbn [Z.eqb Pos.eqb].
  change (base64.PAD =? base64.PAD) with true.
  cbn [base64.a2b_base64 Z.leb Z.compare Pos.compare Pos.compare_cont Z.add Pos.add Pos.succ Z.eqb Pos.eqb].
  rewrite !shiftr_div, land_15 by lia. change (2 ^ 4) with 16. change (2 ^ 2) with 4.
  rewrite !lor_shiftl by (change (2 ^ 4) with 16; change (2 ^ 2) with 4; arith).
  change (2 ^ 4) with 16. change (2 ^ 2) with 4.
  f_equal. f_equal; [arith|]. f_equal. arith.
Qed.

Lemma b64_roundtrip_bounded n : forall s,
  (List.length s <= n)%nat -> Forall (fun b => 0 <= b < 256) s ->
  base64.b64decode (base64.b64encode s) = Some s.
Proof.
  unfold base64.b64decode.
  induction n as [|n IH]; intros s Hlen Hs.
  - destruct s; [reflexivity | cbn in Hlen; lia].
  - destruct s as [|a [|b [|c r]]].
    + reflexivity.
    + inversion Hs; subst. apply a2b_last1. assumption.
    + inversion Hs as [|? ? Ha Hs']; subst. inversion Hs'; subst.
      apply a2b_last2; assumption.
    + inversion Hs as [|? ? Ha Hs1]; subst. inversion Hs1 as [|? ? Hb Hs2]; subst.
      inversion Hs2 as [|? ? Hc Hr]; subst.
      change (base64.b64encode (a :: b :: c :: r))
        with (base64.table_b2a (Z.shiftr a 2)
                :: base64.table_b2a (Z.lor (Z.shiftl (Z.land a 3) 4) (Z.shiftr b 4))
                :: base64.table_b2a (Z.lor (Z.shiftl (Z.land b 15) 2) (Z.shiftr c 6))
                :: base64.table_b2a (Z.land c 63) :: base64.b64encode r).
      rewrite a2b_group by assumption.
      rewrite IH; [reflexivity | cbn in Hlen; lia | assumption].
Qed.

Lemma b64decode_b64encode s :
  Forall (fun b => 0 <= b < 256) s ->
  base64.b64decode (base64.b64encode s) = Some s.
Proof. apply (b64_roundtrip_bounded (List.length s)). lia. Qed.

(** ** Opaque blobs *)

Section Blobs.
Context {F : Float64}.

Lemma encode_document_total doc :
  encode_document doc = Some (base64.b64encode (json.dumps doc)).
Proof.
  unfold encode_document. rewrite utf8_encode_ascii by apply dumps_ascii.
  reflexivity.
Qed.

Lemma decode_encode_document doc blob :
  document doc = true -> encode_document doc = Some blob ->
  decode_document blob = Some doc.
Proof.
  intros Hdoc Hblob. rewrite encode_document_total in Hblob.
  injection Hblob as <-. unfold decode_document.
  rewrite b64decode_b64encode.
  - rewrite utf8_decode_ascii by apply dumps_ascii.
    apply loads_dumps. assumption.
  - eapply Forall_impl; [|apply dumps_ascii]. cbv beta. intros; lia.
Qed.

End Blobs.

(** ** TriggerSchema *)

Section TriggerSchemaFacts.
Context {F : Float64} {C : Collaborators}.

(** [update] written out: every attribute of the result. *)
Lemma update_spec (now : datetime) (self : TriggerSchema.t)
  (u : TriggerUpdate.t) :
  TriggerSchema.update now self u
  = Some
      {| TriggerSchema.id := TriggerSchema.id self;
         TriggerSchema.created := TriggerSchema.created self;
         TriggerSchema.updated := now;
         TriggerSchema.name :=
           match TriggerUpdate.attr (TriggerUpdate.name u) with
           | Some v => v
           | None => TriggerSchema.name self
           end;
         TriggerSchema.workspace_id := TriggerSchema.workspace_id self;
         TriggerSchema.workspace := TriggerSchema.workspace self;
         TriggerSchema.user_id := TriggerSchema.user_id self;
         TriggerSchema.user := TriggerSchema.user self;
         TriggerSchema.event_source_id := TriggerSchema.event_source_id self;
         TriggerSchema.event_source := TriggerSchema.event_source self;
         TriggerSchema.event_filter :=
           match TriggerUpdate.attr (TriggerUpdate.event_filter u) with
           | Some doc => base64.b64encode (json.dumps doc)
           | None => TriggerSchema.event_filter self
           end;
         TriggerSchema.action :=
           match TriggerUpdate.attr (TriggerUpdate.action u) with
           | Some doc => base64.b64encode (json.dumps doc)
           | None => TriggerSchema.action self
           end;
         TriggerSchema.action_flavor := TriggerSchema.action_flavor self;
         TriggerSchema.action_subtype := TriggerSchema.action_subtype self;
         TriggerSchema.description :=
           match TriggerUpdate.attr (TriggerUpdate.description u) with
           | Some v => v
           | None => TriggerSchema.description self
           end;
         TriggerSchema.is_active :=
           match TriggerUpdate.attr (TriggerUpdate.is_active u) with
           | Some v => v
           | None => TriggerSchema.is_active self
           end |}.
Proof.
  destruct u as [[[n|]|] [[d|]|] [[f|]|] [[a|]|] [[i|]|]];
    unfold TriggerSchema.update, TriggerUpdate.dict_items, TriggerUpdate.item;
    repeat first
      [ rewrite encode_document_total
      | progress cbn [app TriggerSchema.for_each TriggerSchema.update_field
                      TriggerSchema.setattr String.eqb Ascii.eqb Bool.eqb
                      TriggerUpdate.attr optional_document
                      TriggerUpdate.name TriggerUpdate.description
                      TriggerUpdate.event_filter TriggerUpdate.action
                      TriggerUpdate.is_active] ];
    reflexivity.
Qed.

End TriggerSchemaFacts.

(** ** Claims on the trigger schemas *)

Section TriggerSchemaClaims.
Context {F : Float64} {C : Collaborators}.

(** C1, as amended.  Round trip of a configuration document: for every
    document built from [None], booleans, integers, floats, strings, lists
    and dictionaries with distinct string keys, in which no string holds a
    high surrogate directly followed by a low surrogate, the expression
    [base64.b64encode(json.dumps(doc).encode("utf-8"))] of
    [TriggerSchema.from_request] succeeds, and the expression
    [json.loads(base64.b64decode(blob).decode())] of
    [TriggerSchema.to_model] reads the same document back from its result
    (a NaN is read back as a NaN). *)
Theorem document_roundtrip (doc : value) :
  document doc = true ->
  exists blob,
    encode_document doc = Some blob /\ decode_document blob = Some doc.
Proof.
  intros Hdoc. exists (base64.b64encode (json.dumps doc)).
  split; [apply encode_document_total|].
  apply decode_encode_document; [assumption | apply encode_document_total].
Qed.

(** C2.  An update that supplies an [event_filter] document replaces the
    stored filter wholesale: [update] succeeds and the stored filter is the
    encoding of the new document, whatever the schema held before; when
    the new document is one that is read back as written, decoding the
    stored filter yields exactly that document. *)
Theorem update_replaces_event_filter (now : datetime) (self : TriggerSchema.t)
  (trigger_update : TriggerUpdate.t) (doc : value) :
  TriggerUpdate.event_filter trigger_update = Some (Some doc) ->
  exists self',
    TriggerSchema.update now self trigger_update = Some self'
    /\ TriggerSchema.event_filter self' = base64.b64encode (json.dumps doc)
    /\ encode_document doc = Some (TriggerSchema.event_filter self')
    /\ (document doc = true ->
        decode_document (TriggerSchema.event_filter self') = Some doc).
Proof.
  intros Hf. eexists. split; [apply update_spec|].
  cbn [TriggerSchema.event_filter]. rewrite Hf. cbn [TriggerUpdate.attr].
  split; [reflexivity|]. split; [apply encode_document_total|].
  intros Hdoc. apply decode_encode_document; [assumption|].
  apply encode_document_total.
Qed.

(** C3, as amended.  [update] succeeds; it sets [updated] to the current
    time; an attribute the update model has no field for keeps its value;
    [name], [description] and [is_active] take the supplied value and keep
    their value when the field is unset or [None]; [event_filter] and
    [action] take the encoding of the supplied document and keep their
    value when the field is unset or [None]. *)
Theorem update_frame (now : datetime) (self : TriggerSchema.t)
  (trigger_update : TriggerUpdate.t) :
  exists self',
    TriggerSchema.update now self trigger_update = Some self'
    /\ TriggerSchema.updated self' = now
    /\ TriggerSchema.id self' = TriggerSchema.id self
    /\ TriggerSchema.created self' = TriggerSchema.created self
    /\ TriggerSchema.workspace_id self' = TriggerSchema.workspace_id self
    /\ TriggerSchema.workspace self' = TriggerSchema.workspace self
    /\ TriggerSchema.user_id self' = TriggerSchema.user_id self
    /\ TriggerSchema.user self' = TriggerSchema.user self
    /\ TriggerSchema.event_source_id self' = TriggerSchema.event_source_id self
    /\ TriggerSchema.event_source self' = TriggerSchema.event_source self
    /\ TriggerSchema.action_flavor self' = TriggerSchema.action_flavor self
    /\ TriggerSchema.action_subtype self' = TriggerSchema.action_subtype self
    /\ TriggerSchema.name self'
       = match TriggerUpdate.attr (TriggerUpdate.name trigger_update) with
         | Some v => v
         | None => TriggerSchema.name self
         end
    /\ TriggerSchema.description self'
       = match TriggerUpdate.attr (TriggerUpdate.description trigger_update) with
         | Some v => v
         | None => TriggerSchema.description self
         end
    /\ TriggerSchema.is_active self'
       = match TriggerUpdate.attr (TriggerUpdate.is_active trigger_update) with
         | Some v => v
         | None => TriggerSchema.is_active self
         end
    /\ match TriggerUpdate.attr (TriggerUpdate.event_filter trigger_update) with
       | Some doc => encode_document doc = Some (TriggerSchema.event_filter self')
       | None => TriggerSchema.event_filter self' = TriggerSchema.event_filter self
       end
    /\ match TriggerUpdate.attr (TriggerUpdate.action trigger_update) with
       | Some doc => encode_document doc = Some (TriggerSchema.action self')
       | None => TriggerSchema.action self' = TriggerSchema.action self
       end.
Proof.
  eexists. split; [apply update_spec|].
  cbn [TriggerSchema.updated TriggerSchema.id TriggerSchema.created
       TriggerSchema.workspace_id TriggerSchema.workspace TriggerSchema.user_id
       TriggerSchema.user TriggerSchema.event_source_id
       TriggerSchema.event_source TriggerSchema.action_flavor
       TriggerSchema.action_subtype TriggerSchema.name
       TriggerSchema.description TriggerSchema.is_active
       TriggerSchema.event_filter TriggerSchema.action].
  repeat (split; [reflexivity|]).
  split.
  - destruct (TriggerUpdate.attr (TriggerUpdate.event_filter trigger_update));
      [apply encode_document_total | reflexivity].
  - destruct (TriggerUpdate.attr (TriggerUpdate.action trigger_update));
      [apply encode_document_total | reflexivity].
Qed.

(** C7.  [to_model] without metadata returns a response whose [metadata]
    is [None]; with metadata, on a schema whose stored filter and action
    decode, it returns a response whose metadata holds the decoded
    [event_filter] and [action] documents, the description, the workspace
    and the event source. *)
Theorem to_model_metadata (self : TriggerSchema.t) (include_resources : bool) :
  (exists response,
     TriggerSchema.to_model self false include_resources = Some response
     /\ TriggerResponse.metadata response = None)
  /\ (forall filter_doc action_doc,
        decode_document (TriggerSchema.event_filter self) = Some filter_doc ->
        decode_document (TriggerSchema.action self) = Some action_doc ->
        exists response,
          TriggerSchema.to_model self true include_resources = Some response
          /\ TriggerResponse.metadata response
             = Some
                 {| TriggerResponse.workspace :=
                      workspace_to_model (TriggerSchema.workspace self);
                    TriggerResponse.event_filter := filter_doc;
                    TriggerResponse.action := action_doc;
                    TriggerResponse.description := TriggerSchema.description self;
                    TriggerResponse.event_source :=
                      event_source_to_model (TriggerSchema.event_source self)
                        false false |}).
Proof.
  split.
  - eexists. split; reflexivity.
  - intros filter_doc action_doc Hf Ha. unfold TriggerSchema.to_model.
    rewrite Hf, Ha. eexists. split; reflexivity.
Qed.

(** C8.  [from_request] succeeds on every request and the schema it
    returns is active. *)
Theorem from_request_is_active (orm : Session) (request : TriggerRequest.t) :
  exists schema,
    TriggerSchema.from_request orm request = Some schema
    /\ TriggerSchema.is_active schema = true.
Proof.
  unfold TriggerSchema.from_request. rewrite !encode_document_total.
  eexists. split; reflexivity.
Qed.

(** C9.  On an execution schema without event metadata, [to_model] with
    metadata succeeds and the event metadata of the response is the empty
    document. *)
Theorem execution_to_model_without_metadata (self : TriggerExecutionSchema.t)
  (include_resources : bool) :
  TriggerExecutionSchema.event_metadata self = None ->
  exists response,
    TriggerExecutionSchema.to_model self true include_resources = Some response
    /\ TriggerExecutionResponse.metadata response
       = Some {| TriggerExecutionResponse.event_metadata := JDict [] |}.
Proof.
  intros Hm. unfold TriggerExecutionSchema.to_model. rewrite Hm.
  eexists. split; reflexivity.
Qed.

End TriggerSchemaClaims.

Lemma document_roundtrip_witness :
  document Examples.metrics_doc = true
  /\ exists blob,
       encode_document Examples.metrics_doc = Some blob
       /\ decode_document blob = Some Examples.metrics_doc.
Proof.
  split; [reflexivity|].
  apply (document_roundtrip (F := sample_floats) Examples.metrics_doc).
  reflexivity.
Defined.

(** C1 as stated fails.  Three documents that [json.dumps] serializes
    are encoded and are not read back as written: a string that holds the
    two halves of a surrogate pair is read back as the one character the
    pair stands for, a tuple is read back as a list, and a key of type
    [int] is read back as a key of type [str]. *)
Lemma documents_not_read_back :
  (exists blob,
     encode_document Examples.halves_doc = Some blob
     /\ decode_document blob = Some Examples.emoji_doc
     /\ Examples.emoji_doc <> Examples.halves_doc)
  /\ (exists blob,
        encode_document Examples.tuple_doc = Some blob
        /\ decode_document blob = Some Examples.list_doc
        /\ Examples.list_doc <> Examples.tuple_doc)
  /\ (exists blob,
        encode_document Examples.int_key_doc = Some blob
        /\ decode_document blob = Some Examples.str_key_doc
        /\ Examples.str_key_doc <> Examples.int_key_doc).
Proof.
  split; [|split]; eexists;
    (split; [reflexivity|]); (split; [reflexivity | discriminate]).
Qed.

Lemma update_replaces_event_filter_witness :
  TriggerUpdate.event_filter Examples.update_filter
  = Some (Some Examples.filter_b2)
  /\ exists self',
       TriggerSchema.update 2000 Examples.trigger Examples.update_filter
       = Some self'
       /\ decode_document (TriggerSchema.event_filter self')
          = Some Examples.filter_b2.
Proof.
  split; [reflexivity|].
  destruct (update_replaces_event_filter (F := sample_floats) (C := named_collaborators) 2000
              Examples.trigger Examples.update_filter Examples.filter_b2
              eq_refl) as (self' & Hu & _ & _ & Hd).
  exists self'. split; [exact Hu | apply Hd; reflexivity].
Defined.

(** C3 as stated fails: the update that supplies no field still changes
    the attribute [updated] of the schema. *)
Lemma update_nothing_changes_updated :
  exists self',
    TriggerSchema.update 2000 Examples.trigger Examples.update_nothing
    = Some self'
    /\ TriggerUpdate.dict_items Examples.update_nothing = []
    /\ TriggerSchema.updated self' <> TriggerSchema.updated Examples.trigger.
Proof.
  eexists. split; [reflexivity|]. split; [reflexivity|]. discriminate.
Qed.

Lemma update_frame_witness :
  exists self',
    TriggerSchema.update 2000 Examples.trigger Examples.update_filter = Some self'
    /\ TriggerSchema.updated self' = 2000
    /\ TriggerSchema.name self' = TriggerSchema.name Examples.trigger
    /\ TriggerSchema.action self' = TriggerSchema.action Examples.trigger.
Proof.
  destruct (update_frame (F := sample_floats) (C := named_collaborators) 2000 Examples.trigger
              Examples.update_filter)
    as (self' & Hu & Hupd & _ & _ & _ & _ & _ & _ & _ & _ & _ & _ & Hn & _ & _ & _ & Ha).
  exists self'. repeat split; assumption.
Defined.

Lemma to_model_metadata_witness :
  decode_document (TriggerSchema.event_filter Examples.trigger)
  = Some Examples.filter_a1
  /\ decode_document (TriggerSchema.action Examples.trigger)
     = Some Examples.action_doc
  /\ exists response md,
       TriggerSchema.to_model Examples.trigger true false = Some response
       /\ TriggerResponse.metadata response = Some md
       /\ TriggerResponse.event_filter md = Examples.filter_a1
       /\ TriggerResponse.action md = Examples.action_doc.
Proof.
  split; [reflexivity|]. split; [reflexivity|].
  destruct (proj2 (to_model_metadata (F := sample_floats) (C := named_collaborators)
                     Examples.trigger false)
              Examples.filter_a1 Examples.action_doc eq_refl eq_refl)
    as (response & Hr & Hm).
  exists response. eexists. split; [exact Hr|]. split; [exact Hm|].
  split; reflexivity.
Defined.

Lemma execution_to_model_without_metadata_witness :
  TriggerExecutionSchema.event_metadata Examples.execution = None
  /\ exists response,
       TriggerExecutionSchema.to_model (F := sample_floats)
         Examples.execution true false
       = Some response
       /\ TriggerExecutionResponse.metadata response
          = Some {| TriggerExecutionResponse.event_metadata := JDict [] |}.
Proof.
  split; [reflexivity|].
  apply (execution_to_model_without_metadata (F := sample_floats) (C := named_collaborators)
           Examples.execution false).
  reflexivity.
Defined.

(** ** The relational store *)

Section StoreFacts.
Context {F : Float64} {C : Collaborators}.



End StoreFacts.


(** C5 fails on the code: the trigger of [Examples.db] has an execution
    that refers to it, and deleting its event source deletes the trigger
    (and the execution), because [TriggerSchema.event_source_id] is
    declared with [ondelete="CASCADE"]. *)
Theorem event_source_delete_cascades_to_trigger :
  ondelete TriggerForeignKeys.event_source_id = CASCADE
  /\ Store.trigger_exists 10 Examples.db = true
  /\ map TriggerExecutionSchema.trigger_id (Store.trigger_execution Examples.db)
     = [10]
  /\ Store.trigger_exists 10 (Store.delete_event_source 3 Examples.db) = false
  /\ Store.trigger_execution (Store.delete_event_source 3 Examples.db) = [].
Proof. repeat split. Qed.

(** ** RBAC *)

Lemma flexible_not_unscoped rt :
  ResourceType.is_flexible_scoped rt = true ->
  ResourceType.is_unscoped rt = false.
Proof. destruct rt; vm_compute; congruence. Qed.

Lemma of_value_found s r :
  ResourceType.of_value s = Ok r -> ResourceType.value r = s.
Proof.
  unfold ResourceType.of_value.
  destruct (find _ _) as [r'|] eqn:E; [|discriminate].
  intros Hr. injection Hr as <-. apply find_some in E.
  apply String.eqb_eq. exact (proj2 E).
Qed.

Lemma of_value_value r : ResourceType.of_value (ResourceType.value r) = Ok r.
Proof. destruct r; reflexivity. Qed.

Lemma of_value_missing s :
  (forall r, ResourceType.value r <> s) ->
  ResourceType.of_value s
  = ValueError (repr.str s ++ " is not a valid ResourceType").
Proof.
  intros Hs. unfold ResourceType.of_value.
  destruct (find _ _) as [r'|] eqn:E; [|reflexivity].
  apply find_some in E. destruct E as [_ E]. apply String.eqb_eq in E.
  destruct (Hs r' E).
Qed.

Lemma of_value_cases s :
  (exists r, ResourceType.of_value s = Ok r /\ ResourceType.value r = s)
  \/ (ResourceType.of_value s
      = ValueError (repr.str s ++ " is not a valid ResourceType")
      /\ forall r, ResourceType.value r <> s).
Proof.
  destruct (ResourceType.of_value s) as [r|msg] eqn:E.
  - left. exists r. split; [reflexivity | apply of_value_found; assumption].
  - right. assert (Hs : forall r, ResourceType.value r <> s).
    { intros r Hr. subst s. rewrite of_value_value in E. discriminate. }
    rewrite <- E. split; [apply of_value_missing; assumption | assumption].
Qed.

(** C4, as amended.  Constructing a resource fails exactly when its
    [type] is the value of no resource type, or it is the value of a
    workspace-scoped type and [workspace_id] is not set, or it is the value
    of an unscoped type and [workspace_id] is set; for the value of a
    flexible-scoped type construction succeeds with and without a
    [workspace_id]. *)
Theorem resource_validation (type_ : string) (id_ workspace_id_ : option UUID) :
  (Resource.fails (Resource.new type_ id_ workspace_id_) = true
   <-> (forall resource_type, ResourceType.value resource_type <> type_)
       \/ (exists resource_type,
             ResourceType.value resource_type = type_
             /\ ((ResourceType.is_workspace_scoped resource_type = true
                  /\ workspace_id_ = None)
                 \/ (ResourceType.is_unscoped resource_type = true
                     /\ workspace_id_ <> None))))
  /\ (forall resource_type,
        ResourceType.value resource_type = type_ ->
        ResourceType.is_flexible_scoped resource_type = true ->
        Resource.new type_ id_ workspace_id_
        = Ok {| Resource.type := type_; Resource.id := id_;
                Resource.workspace_id := workspace_id_ |}).
Proof.
  unfold Resource.new, Resource.validate_workspace_id.
  cbn [Resource.type Resource.workspace_id]. split.
  - destruct (of_value_cases type_) as [(r & Hty & Hv) | [Hty Hnone]];
      rewrite Hty.
    + assert (Huniq : forall r', ResourceType.value r' = type_ -> r' = r).
      { intros r' Hr'. rewrite <- Hr' in Hty. rewrite of_value_value in Hty.
        injection Hty as ->. reflexivity. }
      unfold ResourceType.is_workspace_scoped.
      pose proof (flexible_not_unscoped r) as Hfu.
      split.
      * intros Hx. right. exists r. split; [assumption|].
        unfold ResourceType.is_workspace_scoped.
        destruct (ResourceType.is_flexible_scoped r);
          destruct (ResourceType.is_unscoped r);
          destruct workspace_id_ as [w|]; cbn in Hx |- *;
          try discriminate;
          try (specialize (Hfu eq_refl); discriminate);
          try (left; split; reflexivity);
          try (right; split; [reflexivity | discriminate]).
      * intros [Hnone | (r' & Hr' & Hx)]; [destruct (Hnone r Hv)|].
        apply Huniq in Hr'. subst r'.
        unfold ResourceType.is_workspace_scoped in Hx.
        destruct (ResourceType.is_flexible_scoped r);
          destruct (ResourceType.is_unscoped r);
          destruct workspace_id_ as [w|]; cbn in Hx |- *;
          try reflexivity;
          destruct Hx as [[? ?] | [? ?]]; congruence.
    + split; [intros _; left; assumption | reflexivity].
  - intros r Hv Hflex. subst type_. rewrite of_value_value.
    unfold ResourceType.is_workspace_scoped.
    rewrite Hflex, (flexible_not_unscoped _ Hflex). reflexivity.
Qed.

Lemma resource_validation_witness :
  ResourceType.value ResourceType.STACK = "stack"%string
  /\ ResourceType.is_flexible_scoped ResourceType.STACK = true
  /\ Resource.fails (Resource.new "stack" None None) = false
  /\ Resource.new "stack" None (Some 1)
     = Ok {| Resource.type := "stack"; Resource.id := None;
             Resource.workspace_id := Some 1 |}.
Proof.
  split; [reflexivity|]. split; [reflexivity|]. split; [reflexivity|].
  apply (proj2 (resource_validation "stack" None (Some 1)) ResourceType.STACK);
    reflexivity.
Defined.

(** C4 as stated fails: ["user"] is the value of no resource type, so no
    resource type is there to be workspace-scoped or unscoped, and yet the
    construction of a resource of that type raises a [ValueError]. *)
Lemma resource_of_unknown_type_fails :
  Resource.new "user" None None
  = ValueError "'user' is not a valid ResourceType"
  /\ Resource.fails (Resource.new "user" None None) = true
  /\ forall resource_type, ResourceType.value resource_type <> "user"%string.
Proof.
  split; [reflexivity|]. split; [reflexivity|].
  intros resource_type; destruct resource_type; discriminate.
Qed.

(** C10.  Every resource type satisfies exactly one of
    [is_workspace_scoped], [is_flexible_scoped] and [is_unscoped]. *)
Theorem scoping_exactly_one (resource_type : ResourceType.t) :
  (ResourceType.is_workspace_scoped resource_type = true
   /\ ResourceType.is_flexible_scoped resource_type = false
   /\ ResourceType.is_unscoped resource_type = false)
  \/ (ResourceType.is_workspace_scoped resource_type = false
      /\ ResourceType.is_flexible_scoped resource_type = true
      /\ ResourceType.is_unscoped resource_type = false)
  \/ (ResourceType.is_workspace_scoped resource_type = false
      /\ ResourceType.is_flexible_scoped resource_type = false
      /\ ResourceType.is_unscoped resource_type = true).
Proof.
  destruct resource_type; vm_compute;
    first [ left; repeat split; reflexivity
          | right; left; repeat split; reflexivity
          | right; right; repeat split; reflexivity ].
Qed.

(** ** Creating, updating and reading back *)

Lemma b64encode_cons a s :
  exists c t, base64.b64encode (a :: s) = c :: t.
Proof. destruct s as [|b [|c r]]; eexists _, _; reflexivity. Qed.

Section ReadBack.
Context {F : Float64} {C : Collaborators}.

Lemma encoded_blob_cons doc :
  exists c t, base64.b64encode (json.dumps doc) = c :: t.
Proof.
  destruct (dumps_head doc) as (c & t & E & _). rewrite E. apply b64encode_cons.
Qed.

Lemma decode_stored doc :
  document doc = true ->
  decode_document (base64.b64encode (json.dumps doc)) = Some doc.
Proof.
  intros Hdoc. apply decode_encode_document; [assumption|].
  apply encode_document_total.
Qed.


(** X1.  Create, then read: on a request whose filter and action are
    documents, [from_request] succeeds, and every stored trigger that
    holds the filter and the action [from_request] computed reads, with
    metadata, as the filter and the action of the request. *)
Theorem from_request_to_model (orm : Session) (request : TriggerRequest.t)
  (stored : TriggerSchema.t) (include_resources : bool) :
  document (TriggerRequest.event_filter request) = true ->
  document (TriggerRequest.action request) = true ->
  is_object (TriggerRequest.event_filter request) = true ->
  is_object (TriggerRequest.action request) = true ->
  exists schema,
    TriggerSchema.from_request orm request = Some schema
    /\ TriggerSchema.name schema = TriggerRequest.name request
    /\ TriggerSchema.description schema = TriggerRequest.description request
    /\ decode_document (TriggerSchema.event_filter schema)
       = Some (TriggerRequest.event_filter request)
    /\ decode_document (TriggerSchema.action schema)
       = Some (TriggerRequest.action request)
    /\ (TriggerSchema.event_filter stored = TriggerSchema.event_filter schema ->
        TriggerSchema.action stored = TriggerSchema.action schema ->
        exists response metadata,
          TriggerSchema.to_model stored true include_resources = Some response
          /\ TriggerResponse.metadata response = Some metadata
          /\ TriggerResponse.event_filter metadata
             = TriggerRequest.event_filter request
          /\ TriggerResponse.action metadata = TriggerRequest.action request).
Proof.
  intros Hf Ha _ _. unfold TriggerSchema.from_request.
  rewrite !encode_document_total. eexists.
  split; [reflexivity|].
  cbn [TriggerSchema.name TriggerSchema.description TriggerSchema.event_filter
       TriggerSchema.action].
  split; [reflexivity|]. split; [reflexivity|].
  split; [apply decode_stored; assumption|].
  split; [apply decode_stored; assumption|].
  intros Ef Eact. unfold TriggerSchema.to_model. rewrite Ef, Eact.
  rewrite (decode_stored _ Hf), (decode_stored _ Ha).
  do 2 eexists. split; [reflexivity|]. split; [reflexivity|].
  split; reflexivity.
Qed.

(** X2.  Record an execution, then read: on a request whose event
    metadata is a document, [TriggerExecutionSchema.from_request] stores a
    non-empty blob, and every stored execution that holds this blob reads,
    with metadata, as the event metadata of the request (the empty
    document included: it is stored as a non-empty blob, so it is decoded,
    not defaulted). *)
Theorem execution_from_request_to_model (orm : Session)
  (load_trigger : UUID -> TriggerSchema.t)
  (request : TriggerExecutionRequest.t) (stored : TriggerExecutionSchema.t)
  (include_resources : bool) :
  document (TriggerExecutionRequest.event_metadata request) = true ->
  is_object (TriggerExecutionRequest.event_metadata request) = true ->
  exists schema,
    TriggerExecutionSchema.from_request orm load_trigger request = Some schema
    /\ TriggerExecutionSchema.truthy
         (TriggerExecutionSchema.event_metadata schema) = true
    /\ TriggerExecutionSchema.trigger_id schema
       = TriggerExecutionRequest.trigger request
    /\ (TriggerExecutionSchema.event_metadata stored
        = TriggerExecutionSchema.event_metadata schema ->
        exists response,
          TriggerExecutionSchema.to_model stored true include_resources
          = Some response
          /\ TriggerExecutionResponse.metadata response
             = Some {| TriggerExecutionResponse.event_metadata :=
                         TriggerExecutionRequest.event_metadata request |}).
Proof.
  intros Hdoc _. unfold TriggerExecutionSchema.from_request.
  rewrite encode_document_total.
  destruct (encoded_blob_cons (TriggerExecutionRequest.event_metadata request))
    as (c & t & E).
  pose proof (decode_stored _ Hdoc) as Hdec. rewrite E in *.
  eexists. split; [reflexivity|].
  cbn [TriggerExecutionSchema.event_metadata TriggerExecutionSchema.trigger_id
       TriggerExecutionSchema.truthy].
  split; [reflexivity|]. split; [reflexivity|].
  intros Es. unfold TriggerExecutionSchema.to_model. rewrite Es.
  cbn [TriggerExecutionSchema.truthy TriggerSchema.to_model].
  rewrite Hdec. eexists. split; reflexivity.
Qed.

(** X3.  The trigger inside an execution response is never hydrated:
    whenever [TriggerExecutionSchema.to_model] returns a response, with or
    without metadata, the trigger in its body is the trigger's response
    without metadata and without resources. *)
Theorem execution_trigger_not_hydrated (self : TriggerExecutionSchema.t)
  (include_metadata include_resources : bool)
  (response : TriggerExecutionResponse.t) :
  TriggerExecutionSchema.to_model self include_metadata include_resources
  = Some response ->
  TriggerSchema.to_model (TriggerExecutionSchema.trigger self) false false
  = Some (TriggerExecutionResponse.trigger (TriggerExecutionResponse.body response))
  /\ TriggerResponse.metadata
       (TriggerExecutionResponse.trigger (TriggerExecutionResponse.body response))
     = None
  /\ TriggerResponse.resources
       (TriggerExecutionResponse.trigger (TriggerExecutionResponse.body response))
     = None
  /\ TriggerExecutionResponse.id response = TriggerExecutionSchema.id self.
Proof.
  unfold TriggerExecutionSchema.to_model.
  cbn [TriggerSchema.to_model].
  destruct include_metadata.
  - destruct (if TriggerExecutionSchema.truthy _ then _ else _) as [doc|];
      [|discriminate].
    intros E. injection E as <-. repeat split.
  - intros E. injection E as <-. repeat split.
Qed.

(** X4.  Empty event metadata: an execution whose [event_metadata] is
    the empty [bytes] object reads, with metadata, as the empty document,
    like one without event metadata; the empty blob is not decoded, and
    it is not the encoding of a document. *)
Theorem execution_to_model_empty_metadata (self : TriggerExecutionSchema.t)
  (include_resources : bool) :
  TriggerExecutionSchema.event_metadata self = Some [] ->
  (exists response,
     TriggerExecutionSchema.to_model self true include_resources
     = Some response
     /\ TriggerExecutionResponse.metadata response
        = Some {| TriggerExecutionResponse.event_metadata := JDict [] |})
  /\ decode_document [] = None
  /\ forall doc, encode_document doc <> Some [].
Proof.
  intros E. split; [|split].
  - unfold TriggerExecutionSchema.to_model. rewrite E.
    cbn [TriggerExecutionSchema.truthy TriggerSchema.to_model].
    eexists. split; reflexivity.
  - reflexivity.
  - intros doc. rewrite encode_document_total.
    destruct (encoded_blob_cons doc) as (c & t & ->). discriminate.
Qed.

End ReadBack.

(** ** Updates *)

Section Updates.
Context {F : Float64} {C : Collaborators}.

Lemma attr_merge_field {A : Type} (first second : option (option A)) :
  TriggerUpdate.attr (TriggerUpdate.merge_field first second)
  = match TriggerUpdate.attr second with
    | Some v => Some v
    | None => TriggerUpdate.attr first
    end.
Proof.
  unfold TriggerUpdate.merge_field.
  destruct (TriggerUpdate.attr second) eqn:E; [exact E | reflexivity].
Qed.

(** X6.  Two updates in a row are one update: updating with [first] and
    then with [second] gives the schema that one update with the merge of
    the two gives, where a field supplied by [second] wins and the time
    stamp is the one of the second update. *)
Theorem update_update (now1 now2 : datetime) (self : TriggerSchema.t)
  (first second : TriggerUpdate.t) :
  exists self1,
    TriggerSchema.update now1 self first = Some self1
    /\ TriggerSchema.update now2 self1 second
       = TriggerSchema.update now2 self (TriggerUpdate.merge first second).
Proof.
  eexists. split; [apply update_spec|]. rewrite !update_spec.
  cbn [TriggerSchema.id TriggerSchema.created TriggerSchema.updated
       TriggerSchema.name TriggerSchema.workspace_id TriggerSchema.workspace
       TriggerSchema.user_id TriggerSchema.user TriggerSchema.event_source_id
       TriggerSchema.event_source TriggerSchema.event_filter
       TriggerSchema.action TriggerSchema.action_flavor
       TriggerSchema.action_subtype TriggerSchema.description
       TriggerSchema.is_active
       TriggerUpdate.merge TriggerUpdate.name TriggerUpdate.description
       TriggerUpdate.event_filter TriggerUpdate.action TriggerUpdate.is_active].
  rewrite !attr_merge_field.
  destruct (TriggerUpdate.attr (TriggerUpdate.name second));
    destruct (TriggerUpdate.attr (TriggerUpdate.description second));
    destruct (TriggerUpdate.attr (TriggerUpdate.event_filter second));
    destruct (TriggerUpdate.attr (TriggerUpdate.action second));
    destruct (TriggerUpdate.attr (TriggerUpdate.is_active second));
    reflexivity.
Qed.

(** X7.  An update is idempotent: applying the same update a second
    time, at the same time, changes nothing. *)
Theorem update_idempotent (now : datetime) (self : TriggerSchema.t)
  (trigger_update : TriggerUpdate.t) :
  exists self',
    TriggerSchema.update now self trigger_update = Some self'
    /\ TriggerSchema.update now self' trigger_update = Some self'.
Proof.
  eexists. split; [apply update_spec|]. rewrite update_spec.
  cbn [TriggerSchema.id TriggerSchema.created TriggerSchema.updated
       TriggerSchema.name TriggerSchema.workspace_id TriggerSchema.workspace
       TriggerSchema.user_id TriggerSchema.user TriggerSchema.event_source_id
       TriggerSchema.event_source TriggerSchema.event_filter
       TriggerSchema.action TriggerSchema.action_flavor
       TriggerSchema.action_subtype TriggerSchema.description
       TriggerSchema.is_active].
  destruct (TriggerUpdate.attr (TriggerUpdate.name trigger_update));
    destruct (TriggerUpdate.attr (TriggerUpdate.description trigger_update));
    destruct (TriggerUpdate.attr (TriggerUpdate.event_filter trigger_update));
    destruct (TriggerUpdate.attr (TriggerUpdate.action trigger_update));
    destruct (TriggerUpdate.attr (TriggerUpdate.is_active trigger_update));
    reflexivity.
Qed.

(** X8.  Update, then read: on a schema whose stored filter and action
    decode to JSON objects, after an update whose supplied filter and
    action are documents, [to_model] with metadata succeeds and shows, field by
    field, the supplied value where the update supplies one and the
    previous value where it does not; [updated] is the time of the
    update and [created] is unchanged. *)
Theorem update_to_model (now : datetime) (self : TriggerSchema.t)
  (trigger_update : TriggerUpdate.t) (include_resources : bool)
  (filter_doc action_doc : value) :
  decode_document (TriggerSchema.event_filter self) = Some filter_doc ->
  decode_document (TriggerSchema.action self) = Some action_doc ->
  is_object filter_doc = true ->
  is_object action_doc = true ->
  (forall doc,
     TriggerUpdate.attr (TriggerUpdate.event_filter trigger_update) = Some doc ->
     document doc = true /\ is_object doc = true) ->
  (forall doc,
     TriggerUpdate.attr (TriggerUpdate.action trigger_update) = Some doc ->
     document doc = true /\ is_object doc = true) ->
  exists self' response metadata,
    TriggerSchema.update now self trigger_update = Some self'
    /\ TriggerSchema.to_model self' true include_resources = Some response
    /\ TriggerResponse.metadata response = Some metadata
    /\ TriggerResponse.event_filter metadata
       = match TriggerUpdate.attr (TriggerUpdate.event_filter trigger_update) with
         | Some doc => doc
         | None => filter_doc
         end
    /\ TriggerResponse.action metadata
       = match TriggerUpdate.attr (TriggerUpdate.action trigger_update) with
         | Some doc => doc
         | None => action_doc
         end
    /\ TriggerResponse.description metadata
       = match TriggerUpdate.attr (TriggerUpdate.description trigger_update) with
         | Some v => v
         | None => TriggerSchema.description self
         end
    /\ TriggerResponse.name response
       = match TriggerUpdate.attr (TriggerUpdate.name trigger_update) with
         | Some v => v
         | None => TriggerSchema.name self
         end
    /\ TriggerResponse.is_active (TriggerResponse.body response)
       = match TriggerUpdate.attr (TriggerUpdate.is_active trigger_update) with
         | Some v => v
         | None => TriggerSchema.is_active self
         end
    /\ TriggerResponse.updated (TriggerResponse.body response) = now
    /\ TriggerResponse.created (TriggerResponse.body response)
       = TriggerSchema.created self
    /\ TriggerResponse.id response = TriggerSchema.id self.
Proof.
  intros Hf Ha _ _ Hfd Had.
  destruct (TriggerUpdate.attr (TriggerUpdate.event_filter trigger_update))
    as [fd|] eqn:Ef;
    destruct (TriggerUpdate.attr (TriggerUpdate.action trigger_update))
      as [ad|] eqn:Ea;
    try (specialize (Hfd _ eq_refl); destruct Hfd as [Hfd _]);
    try (specialize (Had _ eq_refl); destruct Had as [Had _]);
    (do 3 eexists; split; [apply update_spec|]; rewrite Ef, Ea; split;
     [ unfold TriggerSchema.to_model;
       cbn [TriggerSchema.event_filter TriggerSchema.action];
       rewrite ?(decode_stored _ Hfd), ?(decode_stored _ Had), ?Hf, ?Ha;
       reflexivity
     | cbn [TriggerResponse.metadata TriggerResponse.event_filter
            TriggerResponse.action TriggerResponse.description
            TriggerResponse.name TriggerResponse.is_active
            TriggerResponse.body TriggerResponse.updated
            TriggerResponse.created TriggerResponse.id
            TriggerSchema.id TriggerSchema.created TriggerSchema.updated
            TriggerSchema.name TriggerSchema.description
            TriggerSchema.is_active];
       repeat split ]).
Qed.

End Updates.

(** ** The stored blobs are base64 text *)

Lemma is_char_table i : 0 <= i < 64 -> base64.is_char (base64.table_b2a i) = true.
Proof.
  intros Hi. unfold base64.is_char.
  rewrite (proj1 (table_roundtrip i Hi)). reflexivity.
Qed.

Lemma b64encode_chars_bounded n : forall s,
  (List.length s <= n)%nat -> Forall (fun b => 0 <= b < 256) s ->
  forallb base64.is_char (base64.b64encode s) = true
  /\ Z.of_nat (List.length (base64.b64encode s)) mod 4 = 0.
Proof.
  induction n as [|n IH]; intros s Hlen Hs.
  - destruct s; [split; reflexivity | cbn in Hlen; lia].
  - destruct s as [|a [|b [|c r]]].
    + split; reflexivity.
    + inversion Hs as [|? ? Ha _]; subst. cbn [base64.b64encode forallb].
      rewrite shiftr_div, land_3 by lia. rewrite Z.shiftl_mul_pow2 by lia.
      change (2 ^ 2) with 4. change (2 ^ 4) with 16.
      rewrite !is_char_table by arith. split; reflexivity.
    + inversion Hs as [|? ? Ha Hs1]; subst. inversion Hs1 as [|? ? Hb _]; subst.
      cbn [base64.b64encode forallb].
      rewrite !shiftr_div, land_3, land_15 by lia.
      rewrite (Z.shiftl_mul_pow2 _ 2) by lia.
      change (2 ^ 2) with 4. change (2 ^ 4) with 16.
      rewrite lor_shiftl by (change (2 ^ 4) with 16; arith).
      change (2 ^ 4) with 16.
      rewrite !is_char_table by arith. split; reflexivity.
    + inversion Hs as [|? ? Ha Hs1]; subst. inversion Hs1 as [|? ? Hb Hs2]; subst.
      inversion Hs2 as [|? ? Hc Hr]; subst.
      destruct (IH r) as [IHc IHl]; [cbn in Hlen; lia | assumption |].
      change (base64.b64encode (a :: b :: c :: r))
        with (base64.table_b2a (Z.shiftr a 2)
                :: base64.table_b2a (Z.lor (Z.shiftl (Z.land a 3) 4) (Z.shiftr b 4))
                :: base64.table_b2a (Z.lor (Z.shiftl (Z.land b 15) 2) (Z.shiftr c 6))
                :: base64.table_b2a (Z.land c 63) :: base64.b64encode r).
      cbn [forallb List.length].
      rewrite !shiftr_div, land_3, land_15, land_63 by lia.
      change (2 ^ 2) with 4. change (2 ^ 4) with 16. change (2 ^ 6) with 64.
      rewrite !lor_shiftl by (change (2 ^ 4) with 16; change (2 ^ 2) with 4; arith).
      change (2 ^ 2) with 4. change (2 ^ 4) with 16.
      rewrite !is_char_table by arith. rewrite IHc. split; [reflexivity|].
      rewrite !Nat2Z.inj_succ. Z.to_euclidean_division_equations. lia.
Qed.

Section StoredBlobs.
Context {F : Float64} {C : Collaborators}.

Lemma stored_blob_is_text doc :
  base64.is_text (base64.b64encode (json.dumps doc)) = true.
Proof.
  destruct (b64encode_chars_bounded (List.length (json.dumps doc))
              (json.dumps doc)) as [Hc Hl].
  - lia.
  - eapply Forall_impl; [|apply dumps_ascii]. cbv beta. intros; lia.
  - unfold base64.is_text. rewrite Hc, Hl. reflexivity.
Qed.


(** X9.  What the schemas store is base64 text: the filter and the action
    a trigger gets from [from_request], the filter and the action an
    [update] supplies, and the event metadata of an execution made by
    [TriggerExecutionSchema.from_request] are non-empty, a whole number of
    quads long, and made of characters of the base64 alphabet and the
    pad only. *)
Theorem stored_blobs_are_base64_text :
  (forall (orm : Session) request schema,
     TriggerSchema.from_request orm request = Some schema ->
     base64.is_text (TriggerSchema.event_filter schema) = true
     /\ base64.is_text (TriggerSchema.action schema) = true
     /\ TriggerSchema.event_filter schema <> []
     /\ TriggerSchema.action schema <> [])
  /\ (forall now self trigger_update self',
        TriggerSchema.update now self trigger_update = Some self' ->
        (TriggerUpdate.attr (TriggerUpdate.event_filter trigger_update) <> None ->
         base64.is_text (TriggerSchema.event_filter self') = true)
        /\ (TriggerUpdate.attr (TriggerUpdate.action trigger_update) <> None ->
            base64.is_text (TriggerSchema.action self') = true))
  /\ (forall (orm : Session) load_trigger request schema,
        TriggerExecutionSchema.from_request orm load_trigger request
        = Some schema ->
        exists blob,
          TriggerExecutionSchema.event_metadata schema = Some blob
          /\ base64.is_text blob = true /\ blob <> []).
Proof.
  split; [|split].
  - intros orm request schema. unfold TriggerSchema.from_request.
    rewrite !encode_document_total. intros E. injection E as <-.
    cbn [TriggerSchema.event_filter TriggerSchema.action].
    split; [apply stored_blob_is_text|]. split; [apply stored_blob_is_text|].
    split.
    + destruct (encoded_blob_cons (TriggerRequest.event_filter request))
        as (c & t & ->). discriminate.
    + destruct (encoded_blob_cons (TriggerRequest.action request))
        as (c & t & ->). discriminate.
  - intros now self trigger_update self'. rewrite update_spec.
    intros E. injection E as <-.
    cbn [TriggerSchema.event_filter TriggerSchema.action]. split.
    + destruct (TriggerUpdate.attr (TriggerUpdate.event_filter trigger_update));
        [intros _; apply stored_blob_is_text | intros Hx; congruence].
    + destruct (TriggerUpdate.attr (TriggerUpdate.action trigger_update));
        [intros _; apply stored_blob_is_text | intros Hx; congruence].
  - intros orm load_trigger request schema.
    unfold TriggerExecutionSchema.from_request.
    rewrite encode_document_total. intros E. injection E as <-.
    cbn [TriggerExecutionSchema.event_metadata]. eexists.
    split; [reflexivity|]. split; [apply stored_blob_is_text|].
    destruct (encoded_blob_cons (TriggerExecutionRequest.event_metadata request))
      as (c & t & ->). discriminate.
Qed.

End StoredBlobs.

(** ** The RBAC enumerations *)

(** X10.  [ResourceType(value)] finds a member by its value: every member
    is found by its own value, a value that is found is the value of the
    member found (so the values of the members are distinct), and a
    string that is the value of no member raises a [ValueError]. *)
Theorem resource_type_of_value :
  (forall r, ResourceType.of_value (ResourceType.value r) = Ok r)
  /\ (forall s r, ResourceType.of_value s = Ok r -> ResourceType.value r = s)
  /\ (forall r1 r2, ResourceType.value r1 = ResourceType.value r2 -> r1 = r2)
  /\ (forall s, (forall r, ResourceType.value r <> s) ->
                Resource.fails (ResourceType.of_value s) = true).
Proof.
  assert (Hfound : forall r, ResourceType.of_value (ResourceType.value r) = Ok r)
    by (intros r; destruct r; reflexivity).
  split; [exact Hfound|]. split; [|split].
  - intros s r. unfold ResourceType.of_value.
    destruct (find _ _) as [r'|] eqn:E; [|discriminate].
    intros Hr. injection Hr as <-. apply find_some in E.
    apply String.eqb_eq. exact (proj2 E).
  - intros r1 r2 Hv. pose proof (Hfound r1) as H1. rewrite Hv, Hfound in H1.
    injection H1 as ->. reflexivity.
  - intros s Hs. rewrite of_value_missing by assumption. reflexivity.
Qed.

(** X11.  [Action(value)] finds an RBAC action by its value: every action
    is found by its own value, the values of the actions are distinct,
    and a string that is the value of no action raises a [ValueError]. *)
Theorem action_of_value :
  (forall a, Action.of_value (Action.value a) = Ok a)
  /\ (forall s a, Action.of_value s = Ok a -> Action.value a = s)
  /\ (forall a1 a2, Action.value a1 = Action.value a2 -> a1 = a2)
  /\ (forall s, (forall a, Action.value a <> s) ->
                Resource.fails (Action.of_value s) = true).
Proof.
  assert (Hfound : forall a, Action.of_value (Action.value a) = Ok a)
    by (intros a; destruct a; reflexivity).
  split; [exact Hfound|]. split; [|split].
  - intros s a. unfold Action.of_value.
    destruct (find _ _) as [a'|] eqn:E; [|discriminate].
    intros Ha. injection Ha as <-. apply find_some in E.
    apply String.eqb_eq. exact (proj2 E).
  - intros a1 a2 Hv. pose proof (Hfound a1) as H1. rewrite Hv, Hfound in H1.
    injection H1 as ->. reflexivity.
  - intros s Hs. unfold Action.of_value.
    destruct (find _ _) as [a'|] eqn:E; [|reflexivity].
    apply find_some in E. destruct E as [_ E]. apply String.eqb_eq in E.
    destruct (Hs a' E).
Qed.

(** X12.  Constructing a [Resource]: a type that is the value of no
    resource type raises a [ValueError], whatever the keys; and a
    construction that succeeds returns the resource with the fields as
    given, its type is the value of a resource type, a workspace-scoped
    type comes with a [workspace_id] and an unscoped type without. *)
Theorem resource_construction (type_ : string) (id_ workspace_id_ : option UUID) :
  ((forall r, ResourceType.value r <> type_) ->
   Resource.fails (Resource.new type_ id_ workspace_id_) = true)
  /\ (forall resource,
        Resource.new type_ id_ workspace_id_ = Ok resource ->
        resource = {| Resource.type := type_; Resource.id := id_;
                      Resource.workspace_id := workspace_id_ |}
        /\ exists r,
             ResourceType.value r = type_
             /\ (ResourceType.is_workspace_scoped r = true ->
                 workspace_id_ <> None)
             /\ (ResourceType.is_unscoped r = true -> workspace_id_ = None)).
Proof.
  split.
  - intros Hs. unfold Resource.new, Resource.validate_workspace_id.
    cbn [Resource.type]. rewrite of_value_missing by assumption. reflexivity.
  - intros resource Hr. unfold Resource.new, Resource.validate_workspace_id in Hr.
    cbn [Resource.type Resource.workspace_id] in Hr.
    unfold ResourceType.of_value in Hr.
    destruct (find _ _) as [r|] eqn:E; [|discriminate].
    apply find_some in E. destruct E as [_ E]. apply String.eqb_eq in E.
    destruct (ResourceType.is_workspace_scoped r) eqn:Ews;
      destruct (ResourceType.is_unscoped r) eqn:Eun;
      destruct workspace_id_ as [w|]; cbn [andb negb Resource.is_set] in Hr;
      try discriminate; injection Hr as <-;
      (split; [reflexivity|]); exists r; rewrite Ews, Eun;
      (split; [exact E|]); split; intros; congruence.
Qed.

(** ** The string of a resource *)

Lemma append_assoc (a b c : string) :
  ((a ++ b) ++ c)%string = (a ++ (b ++ c))%string.
Proof. induction a as [|x a IH]; cbn; [reflexivity | rewrite IH; reflexivity]. Qed.

Lemma append_nil_r (a : string) : (a ++ "")%string = a.
Proof. induction a as [|x a IH]; cbn; [reflexivity | rewrite IH; reflexivity]. Qed.

Lemma occurs_append c (a b : string) :
  occurs c (a ++ b)%string = occurs c a || occurs c b.
Proof.
  induction a as [|x a IH]; cbn; [reflexivity|].
  rewrite IH. apply orb_assoc.
Qed.

Lemma occurs_substring c s : forall n m,
  occurs c s = false -> occurs c (substring n m s) = false.
Proof.
  induction s as [|x s IH]; intros n m Hs.
  - destruct n, m; reflexivity.
  - cbn in Hs. apply orb_false_iff in Hs. destruct Hs as [Hx Hs].
    destruct n as [|n]; destruct m as [|m]; cbn; try reflexivity.
    + rewrite Hx. apply IH. assumption.
    + apply IH. assumption.
    + apply IH. assumption.
Qed.

(** Splitting at the first occurrence of a character is unambiguous. *)
Lemma split_at c : forall (a a' b b' : string),
  occurs c a = false -> occurs c a' = false ->
  (a ++ String c b)%string = (a' ++ String c b')%string ->
  a = a' /\ b = b'.
Proof.
  induction a as [|x a IH]; intros [|y a'] b b' Ha Ha' E; cbn in *.
  - injection E as ->. split; reflexivity.
  - injection E as <- _. rewrite Ascii.eqb_refl in Ha'. discriminate.
  - injection E as -> _. rewrite Ascii.eqb_refl in Ha. discriminate.
  - injection E as -> E. apply orb_false_iff in Ha, Ha'.
    destruct (IH a' b b' (proj2 Ha) (proj2 Ha') E) as [-> ->].
    split; reflexivity.
Qed.

Lemma no_split c (s a b : string) :
  occurs c s = false -> s <> (a ++ String c b)%string.
Proof.
  intros Hs E. rewrite E, occurs_append in Hs. cbn in Hs.
  rewrite Ascii.eqb_refl in Hs. rewrite orb_true_r in Hs. discriminate.
Qed.

(** *** Hexadecimal digits *)

Lemma hex_range d :
  0 <= d < 16 ->
  d = 0 \/ d = 1 \/ d = 2 \/ d = 3 \/ d = 4 \/ d = 5 \/ d = 6 \/ d = 7
  \/ d = 8 \/ d = 9 \/ d = 10 \/ d = 11 \/ d = 12 \/ d = 13 \/ d = 14 \/ d = 15.
Proof. lia. Qed.

Ltac hex_cases H :=
  apply hex_range in H;
  repeat (destruct H as [H | H]; [subst|]); subst.

Lemma hexchar_inj a b :
  0 <= a < 16 -> 0 <= b < 16 -> uuid.hexchar a = uuid.hexchar b -> a = b.
Proof.
  intros Ha Hb. hex_cases Ha; hex_cases Hb; cbn; intros E;
    first [reflexivity | discriminate E].
Qed.

Lemma hexchar_not c :
  c = ":"%char \/ c = "/"%char ->
  forall d, 0 <= d < 16 -> Ascii.eqb (uuid.hexchar d) c = false.
Proof. intros [-> | ->] d Hd; hex_cases Hd; reflexivity. Qed.

Lemma hex_pad_length w : forall n acc,
  String.length (uuid.hex_pad w n acc) = (w + String.length acc)%nat.
Proof.
  induction w as [|w IH]; intros n acc; cbn [uuid.hex_pad]; [reflexivity|].
  rewrite IH. cbn. lia.
Qed.

Lemma hex_pad_occurs c w : forall n acc,
  (forall d, 0 <= d < 16 -> Ascii.eqb (uuid.hexchar d) c = false) ->
  occurs c acc = false -> occurs c (uuid.hex_pad w n acc) = false.
Proof.
  induction w as [|w IH]; intros n acc Hc Hacc; cbn [uuid.hex_pad];
    [assumption|].
  apply IH; [assumption|]. cbn [occurs]. rewrite Hacc.
  rewrite Hc by (apply Z.mod_pos_bound; lia). reflexivity.
Qed.

Lemma pow16_S (w : nat) : 16 ^ Z.of_nat (S w) = 16 * 16 ^ Z.of_nat w.
Proof. rewrite Nat2Z.inj_succ, Z.pow_succ_r by lia. reflexivity. Qed.

Lemma hex_pad_inj w : forall n m acc acc',
  0 <= n < 16 ^ Z.of_nat w -> 0 <= m < 16 ^ Z.of_nat w ->
  String.length acc = String.length acc' ->
  uuid.hex_pad w n acc = uuid.hex_pad w m acc' -> n = m /\ acc = acc'.
Proof.
  induction w as [|w IH]; intros n m acc acc' Hn Hm Hlen E.
  - cbn in *. split; [lia | assumption].
  - rewrite pow16_S in Hn, Hm. cbn [uuid.hex_pad] in E.
    apply IH in E; [| Z.to_euclidean_division_equations; lia
                    | Z.to_euclidean_division_equations; lia
                    | cbn; congruence ].
    destruct E as [Hq E]. injection E as Hc ->.
    apply hexchar_inj in Hc; try (apply Z.mod_pos_bound; lia).
    split; [|reflexivity]. Z.to_euclidean_division_equations. lia.
Qed.

(** *** The string of a UUID *)

Ltac explode h Hlen :=
  do 32 (destruct h as [|? h]; [discriminate Hlen|];
         cbn [String.length] in Hlen; apply eq_add_S in Hlen);
  destruct h; [clear Hlen | discriminate Hlen].

Lemma groups_inj (h1 h2 : string) :
  String.length h1 = 32%nat -> String.length h2 = 32%nat ->
  (substring 0 8 h1 ++ "-" ++ substring 8 4 h1 ++ "-"
     ++ substring 12 4 h1 ++ "-" ++ substring 16 4 h1 ++ "-"
     ++ substring 20 12 h1)%string
  = (substring 0 8 h2 ++ "-" ++ substring 8 4 h2 ++ "-"
       ++ substring 12 4 h2 ++ "-" ++ substring 16 4 h2 ++ "-"
       ++ substring 20 12 h2)%string ->
  h1 = h2.
Proof.
  intros L1 L2 E. explode h1 L1. explode h2 L2.
  cbn in E. inversion E. reflexivity.
Qed.

Lemma uuid_str_inj u1 u2 :
  uuid.valid u1 -> uuid.valid u2 -> uuid.str u1 = uuid.str u2 -> u1 = u2.
Proof.
  unfold uuid.valid, uuid.str. intros H1 H2 E. cbv zeta in E.
  apply groups_inj in E; try apply hex_pad_length.
  apply hex_pad_inj in E; [exact (proj1 E) | exact H1 | exact H2 | reflexivity].
Qed.

Lemma uuid_str_occurs c u :
  c = ":"%char \/ c = "/"%char -> occurs c (uuid.str u) = false.
Proof.
  intros Hc. unfold uuid.str. cbv zeta.
  assert (Hh : occurs c (uuid.hex_pad 32 u EmptyString) = false)
    by (apply hex_pad_occurs; [apply hexchar_not; assumption | reflexivity]).
  assert (Hd : occurs c "-" = false) by (destruct Hc as [-> | ->]; reflexivity).
  rewrite !occurs_append, Hd, !occurs_substring by assumption. reflexivity.
Qed.

(** *** The string of a resource *)

Lemma type_occurs c (s : string) r :
  c = ":"%char \/ c = "/"%char ->
  ResourceType.of_value s = Ok r -> occurs c s = false.
Proof.
  intros Hc Hr.
  assert (Hs : ResourceType.value r = s).
  { unfold ResourceType.of_value in Hr.
    destruct (find _ _) as [r'|] eqn:E; [|discriminate].
    injection Hr as <-. apply find_some in E. apply String.eqb_eq.
    exact (proj2 E). }
  subst s. destruct Hc as [-> | ->]; destruct r; reflexivity.
Qed.

(** The string of a resource with the two optional parts written out. *)
Lemma str_parts (self : Resource.t) :
  Resource.__str__ self
  = (match Resource.workspace_id self with
     | Some w => uuid.str w ++ String ":" EmptyString
     | None => EmptyString
     end
     ++ (Resource.type self
           ++ match Resource.id self with
              | Some i => String "/" (uuid.str i)
              | None => EmptyString
              end))%string.
Proof.
  unfold Resource.__str__.
  destruct (Resource.workspace_id self), (Resource.id self); cbv zeta;
    rewrite ?append_assoc, ?append_nil_r; cbn [append]; reflexivity.
Qed.

Lemma tail_occurs_colon (t : string) (i : option UUID) r :
  ResourceType.of_value t = Ok r ->
  occurs ":" (t ++ match i with
                   | Some k => String "/" (uuid.str k)
                   | None => EmptyString
                   end)%string = false.
Proof.
  intros Hr. rewrite occurs_append.
  rewrite (type_occurs ":" t r) by (auto || assumption).
  destruct i as [k|]; [|reflexivity].
  cbn [occurs orb]. rewrite uuid_str_occurs by auto. reflexivity.
Qed.

Lemma tail_inj (t1 t2 : string) (i1 i2 : option UUID) r1 r2 :
  ResourceType.of_value t1 = Ok r1 -> ResourceType.of_value t2 = Ok r2 ->
  Resource.optional_uuid i1 -> Resource.optional_uuid i2 ->
  (t1 ++ match i1 with
         | Some k => String "/" (uuid.str k)
         | None => EmptyString
         end)%string
  = (t2 ++ match i2 with
           | Some k => String "/" (uuid.str k)
           | None => EmptyString
           end)%string ->
  t1 = t2 /\ i1 = i2.
Proof.
  intros Hr1 Hr2 Hi1 Hi2 E.
  pose proof (type_occurs "/" t1 r1 (or_intror eq_refl) Hr1) as N1.
  pose proof (type_occurs "/" t2 r2 (or_intror eq_refl) Hr2) as N2.
  destruct i1 as [k1|], i2 as [k2|]; cbn [Resource.optional_uuid] in *.
  - apply split_at in E; try assumption. destruct E as [-> E].
    apply uuid_str_inj in E; try assumption. subst. split; reflexivity.
  - rewrite append_nil_r in E. symmetry in E. apply no_split in E; [destruct E | assumption].
  - rewrite append_nil_r in E. apply no_split in E; [destruct E | assumption].
  - rewrite !append_nil_r in E. subst. split; reflexivity.
Qed.

(** X13.  The string of a resource identifies it: two resources whose
    type is the value of a resource type and whose keys are UUIDs have
    the same string only when they have the same type, the same [id] and
    the same [workspace_id]. *)
Theorem resource_str_injective (r1 r2 : Resource.t) :
  Resource.well_formed r1 -> Resource.well_formed r2 ->
  Resource.__str__ r1 = Resource.__str__ r2 -> r1 = r2.
Proof.
  intros ((rt1 & T1) & I1 & W1) ((rt2 & T2) & I2 & W2) E.
  rewrite !str_parts in E.
  destruct r1 as [t1 i1 w1], r2 as [t2 i2 w2].
  cbn [Resource.type Resource.id Resource.workspace_id] in *.
  pose proof (tail_occurs_colon t1 i1 rt1 T1) as C1.
  pose proof (tail_occurs_colon t2 i2 rt2 T2) as C2.
  assert (Hw : w1 = w2
               /\ (t1 ++ match i1 with
                         | Some k => String "/" (uuid.str k)
                         | None => EmptyString
                         end)%string
                  = (t2 ++ match i2 with
                           | Some k => String "/" (uuid.str k)
                           | None => EmptyString
                           end)%string).
  { destruct w1 as [k1|], w2 as [k2|]; cbn [Resource.optional_uuid] in *.
    - rewrite !append_assoc in E. cbn [append] in E.
      apply split_at in E; try (apply uuid_str_occurs; auto).
      destruct E as [E ->]. apply uuid_str_inj in E; try assumption.
      subst. split; reflexivity.
    - rewrite append_assoc in E. cbn [append] in E.
      symmetry in E. apply no_split in E; [destruct E | assumption].
    - rewrite append_assoc in E. cbn [append] in E.
      apply no_split in E; [destruct E | assumption].
    - cbn [append] in E. split; [reflexivity | assumption]. }
  destruct Hw as [-> Htail].
  destruct (tail_inj t1 t2 i1 i2 rt1 rt2 T1 T2 I1 I2 Htail) as [-> ->].
  reflexivity.
Qed.

(** X14.  The separators of the string of a resource: for a resource
    whose type is the value of a resource type, the string contains a
    colon exactly when [workspace_id] is set and a slash exactly when [id]
    is set; with neither, the string is the type. *)
Theorem resource_str_separators (self : Resource.t) (r : ResourceType.t) :
  ResourceType.of_value (Resource.type self) = Ok r ->
  occurs ":" (Resource.__str__ self) = Resource.is_set (Resource.workspace_id self)
  /\ occurs "/" (Resource.__str__ self) = Resource.is_set (Resource.id self)
  /\ (Resource.workspace_id self = None -> Resource.id self = None ->
      Resource.__str__ self = Resource.type self).
Proof.
  intros Hr. rewrite str_parts.
  pose proof (type_occurs ":" _ r (or_introl eq_refl) Hr) as Tc.
  pose proof (type_occurs "/" _ r (or_intror eq_refl) Hr) as Ts.
  destruct self as [t i w]. cbn [Resource.type Resource.id Resource.workspace_id] in *.
  split; [|split].
  - rewrite occurs_append, (tail_occurs_colon t i r Hr), orb_false_r.
    destruct w as [k|]; [|reflexivity].
    rewrite occurs_append. cbn. apply orb_true_r.
  - rewrite !occurs_append, Ts. cbn [orb].
    assert (Hw : occurs "/" match w with
                            | Some k => (uuid.str k ++ String ":" EmptyString)%string
                            | None => EmptyString
                            end = false).
    { destruct w as [k|]; [|reflexivity].
      rewrite occurs_append, uuid_str_occurs by auto. reflexivity. }
    rewrite Hw. cbn [orb]. destruct i as [k|]; reflexivity.
  - intros -> ->. cbn [append]. apply append_nil_r.
Qed.

(** ** The properties on concrete inputs *)

Lemma from_request_to_model_witness :
  document (TriggerRequest.event_filter Examples.request) = true
  /\ document (TriggerRequest.action Examples.request) = true
  /\ is_object (TriggerRequest.event_filter Examples.request) = true
  /\ is_object (TriggerRequest.action Examples.request) = true
  /\ exists schema response metadata,
       TriggerSchema.from_request Examples.session Examples.request = Some schema
       /\ TriggerSchema.event_filter Examples.trigger
          = TriggerSchema.event_filter schema
       /\ TriggerSchema.action Examples.trigger = TriggerSchema.action schema
       /\ TriggerSchema.to_model Examples.trigger true false = Some response
       /\ TriggerResponse.metadata response = Some metadata
       /\ TriggerResponse.event_filter metadata = Examples.filter_a1
       /\ TriggerResponse.action metadata = Examples.action_doc.
Proof.
  split; [reflexivity|]. split; [reflexivity|].
  split; [reflexivity|]. split; [reflexivity|].
  destruct (from_request_to_model (F := sample_floats) (C := named_collaborators)
              Examples.session Examples.request Examples.trigger false
              eq_refl eq_refl eq_refl eq_refl)
    as (schema & Hs & _ & _ & _ & _ & Hread).
  assert (Hc : TriggerSchema.event_filter Examples.trigger
               = TriggerSchema.event_filter schema
               /\ TriggerSchema.action Examples.trigger
                  = TriggerSchema.action schema).
  { unfold TriggerSchema.from_request in Hs.
    rewrite !encode_document_total in Hs. injection Hs as <-.
    split; reflexivity. }
  destruct Hc as [Hf Ha].
  destruct (Hread Hf Ha) as (response & metadata & Hr & Hm & Hef & Hact).
  exists schema, response, metadata. repeat split; assumption.
Defined.

Lemma execution_from_request_to_model_witness :
  document (TriggerExecutionRequest.event_metadata Examples.execution_request)
  = true
  /\ is_object (TriggerExecutionRequest.event_metadata Examples.execution_request)
     = true
  /\ exists schema response,
       TriggerExecutionSchema.from_request Examples.session
         (fun _ => Examples.trigger) Examples.execution_request = Some schema
       /\ TriggerExecutionSchema.event_metadata Examples.recorded_execution
          = TriggerExecutionSchema.event_metadata schema
       /\ TriggerExecutionSchema.to_model Examples.recorded_execution true false
          = Some response
       /\ TriggerExecutionResponse.metadata response
          = Some {| TriggerExecutionResponse.event_metadata :=
                      TriggerExecutionRequest.event_metadata
                        Examples.execution_request |}.
Proof.
  split; [reflexivity|]. split; [reflexivity|].
  destruct (execution_from_request_to_model
              (F := sample_floats) (C := named_collaborators)
              Examples.session (fun _ => Examples.trigger)
              Examples.execution_request Examples.recorded_execution false
              eq_refl eq_refl)
    as (schema & Hs & _ & _ & Hread).
  assert (Hm : TriggerExecutionSchema.event_metadata Examples.recorded_execution
               = TriggerExecutionSchema.event_metadata schema).
  { unfold TriggerExecutionSchema.from_request in Hs.
    rewrite encode_document_total in Hs. injection Hs as <-. reflexivity. }
  destruct (Hread Hm) as (response & Hr & Hmd).
  exists schema, response. repeat split; assumption.
Defined.

Lemma execution_trigger_not_hydrated_witness :
  exists response,
    TriggerExecutionSchema.to_model (F := sample_floats)
      Examples.execution true false = Some response
    /\ TriggerResponse.metadata
         (TriggerExecutionResponse.trigger
            (TriggerExecutionResponse.body response)) = None.
Proof.
  eexists. split; [reflexivity|].
  exact (proj1 (proj2 (execution_trigger_not_hydrated
                         (F := sample_floats) (C := named_collaborators)
                         Examples.execution true false _ eq_refl))).
Defined.

Lemma execution_to_model_empty_metadata_witness :
  TriggerExecutionSchema.event_metadata Examples.empty_execution = Some []
  /\ exists response,
       TriggerExecutionSchema.to_model (F := sample_floats)
         Examples.empty_execution true false = Some response
       /\ TriggerExecutionResponse.metadata response
          = Some {| TriggerExecutionResponse.event_metadata := JDict [] |}.
Proof.
  split; [reflexivity|].
  apply (proj1 (execution_to_model_empty_metadata
                  (F := sample_floats) (C := named_collaborators)
                  Examples.empty_execution false eq_refl)).
Defined.

Lemma update_to_model_witness :
  decode_document (TriggerSchema.event_filter Examples.trigger)
  = Some Examples.filter_a1
  /\ decode_document (TriggerSchema.action Examples.trigger)
     = Some Examples.action_doc
  /\ exists self' response metadata,
       TriggerSchema.update 2000 Examples.trigger Examples.update_filter
       = Some self'
       /\ TriggerSchema.to_model self' true false = Some response
       /\ TriggerResponse.metadata response = Some metadata
       /\ TriggerResponse.event_filter metadata = Examples.filter_b2
       /\ TriggerResponse.action metadata = Examples.action_doc
       /\ TriggerResponse.updated (TriggerResponse.body response) = 2000.
Proof.
  split; [reflexivity|]. split; [reflexivity|].
  destruct (update_to_model (F := sample_floats) (C := named_collaborators)
              2000 Examples.trigger Examples.update_filter false
              Examples.filter_a1 Examples.action_doc
              eq_refl eq_refl eq_refl eq_refl)
    as (self' & response & metadata & Hu & Hr & Hm & Hf & Ha & _ & _ & _ & Hupd & _).
  - intros doc E. injection E as <-. split; reflexivity.
  - intros doc E. discriminate E.
  - exists self', response, metadata. repeat split; assumption.
Defined.

Lemma stored_blobs_are_base64_text_witness :
  exists schema,
    TriggerSchema.from_request Examples.session Examples.request = Some schema
    /\ base64.is_text (TriggerSchema.event_filter schema) = true
    /\ base64.is_text (TriggerSchema.action schema) = true.
Proof.
  eexists. split; [reflexivity|].
  destruct (proj1 (stored_blobs_are_base64_text (F := sample_floats) (C := named_collaborators))
              Examples.session Examples.request _ eq_refl) as (Hf & Ha & _).
  split; assumption.
Defined.

Lemma resource_type_of_value_witness :
  ResourceType.of_value "trigger_execution" = Ok ResourceType.TRIGGER_EXECUTION
  /\ ResourceType.value ResourceType.TRIGGER_EXECUTION = "trigger_execution"%string.
Proof.
  split; [reflexivity|].
  apply (proj1 (proj2 resource_type_of_value)). reflexivity.
Defined.

Lemma action_of_value_witness :
  Action.of_value "read_secret_value" = Ok Action.READ_SECRET_VALUE
  /\ Action.value Action.READ_SECRET_VALUE = "read_secret_value"%string.
Proof.
  split; [reflexivity|].
  apply (proj1 (proj2 action_of_value)). reflexivity.
Defined.

Lemma resource_construction_witness :
  Resource.new "trigger" (Some 10) (Some 1) = Ok Examples.resource
  /\ exists r,
       ResourceType.value r = "trigger"%string
       /\ (ResourceType.is_workspace_scoped r = true -> Some 1 <> (None : option UUID)).
Proof.
  split; [reflexivity|].
  destruct (proj2 (resource_construction "trigger" (Some 10) (Some 1))
              Examples.resource eq_refl) as (_ & r & Hv & Hw & _).
  exists r. split; assumption.
Defined.

Lemma examples_resource_well_formed :
  Resource.well_formed Examples.resource.
Proof.
  split; [exists ResourceType.TRIGGER; reflexivity|].
  split; cbn; unfold uuid.valid; lia.
Defined.

Lemma resource_str_injective_witness :
  Resource.well_formed Examples.resource
  /\ Resource.well_formed
       {| Resource.type := "trigger"; Resource.id := Some 10;
          Resource.workspace_id := None |}
  /\ Resource.__str__ Examples.resource
     <> Resource.__str__
          {| Resource.type := "trigger"; Resource.id := Some 10;
             Resource.workspace_id := None |}.
Proof.
  assert (Hw : Resource.well_formed
                 {| Resource.type := "trigger"; Resource.id := Some 10;
                    Resource.workspace_id := None |}).
  { split; [exists ResourceType.TRIGGER; reflexivity|].
    split; cbn; unfold uuid.valid; [lia | exact I]. }
  split; [exact examples_resource_well_formed|]. split; [exact Hw|].
  intros E.
  apply (resource_str_injective _ _ examples_resource_well_formed Hw) in E.
  discriminate E.
Defined.

Lemma resource_str_separators_witness :
  ResourceType.of_value (Resource.type Examples.resource) = Ok ResourceType.TRIGGER
  /\ occurs ":" (Resource.__str__ Examples.resource) = true
  /\ occurs "/" (Resource.__str__ Examples.resource) = true.
Proof.
  split; [reflexivity|].
  destruct (resource_str_separators Examples.resource ResourceType.TRIGGER
              eq_refl) as (Hc & Hs & _).
  split; assumption.
Defined.
